(** * arch/arm64/kernel/sdei.c: delegated-event stacks, entry point and dispatch

    A shallow embedding of the arm64 SDEI glue: the per-cpu stack arena
    ([init_sdei_stacks], [free_sdei_stacks]), the stack membership test
    ([_on_sdei_stack]), the entry-point resolver
    ([sdei_arch_get_entry_point]) and the two handlers ([_sdei_handler],
    [__sdei_handler]).

    C integers are modelled as [Z] with the wrap-around written out; the
    per-cpu pointer variables are finite maps from cpu number to address,
    a missing key reading as NULL (per-cpu data is zero-initialised). *)

From Stdlib Require Import ZArith Lia List Bool String.
From stdpp Require Import base gmap sets list.

Set Warnings "-clear-no-such-hyp".

Local Open Scope Z_scope.

(** ** Machine integers *)

Definition u64 (x : Z) : Z := x mod 2 ^ 64.
Definition u32 (x : Z) : Z := x mod 2 ^ 32.

(** ** Constants and build configuration declared outside this file

    sdei.c takes these from kernel headers ([asm/ptrace.h],
    [uapi/linux/arm_sdei.h], [asm/vmap_stack.h], [linux/errno.h]) and from
    Kconfig.  They are parameters of the development. *)

Class Platform := {
  PSR_MODE32_BIT : Z;
  PSR_MODE_MASK : Z;
  PSR_I_BIT : Z;
  SDEI_EV_HANDLED : Z;
  SDEI_EV_FAILED : Z;
  SDEI_STACK_SIZE : Z;
  ENOMEM : Z;
  CONDUIT_HVC : Z;
  SDEI_EXIT_HVC : Z;
  SDEI_EXIT_SMC : Z;
  __sdei_asm_handler : Z;
  CONFIG_VMAP_STACK : bool;
  CONFIG_ARM64_PAN : bool;
  (* facts fixed at boot *)
  nr_cpu_ids : nat;
  cpu_possible_mask : Z;
  is_hyp_mode_available : bool;
  is_kernel_in_hyp_mode : bool;
  cpu_has_pan : bool;
}.

(** [for_each_possible_cpu]: the set bits of [cpu_possible_mask] below
    [nr_cpu_ids], in increasing order. *)
Definition for_each_possible_cpu {plat : Platform} : list nat :=
  filter (fun cpu => Is_true (Z.testbit cpu_possible_mask (Z.of_nat cpu)))
         (seq 0 nr_cpu_ids).

(** ** Stack arena *)

Module Arena.

(** The two per-cpu pointer variables [_free_sdei_stack] and
    [_init_sdei_stack] are handed by address. *)
Inductive percpu_var := sdei_stack_normal_ptr | sdei_stack_critical_ptr.

#[global] Instance percpu_var_eq_dec : EqDecision percpu_var.
Proof. solve_decision. Defined.

(** Kernel memory as this file sees it: the two per-cpu variables, the
    vmalloc regions that are live, and the outcomes of the allocation
    requests still to come (0 for a request that fails; a request made
    after the tape ran out fails). *)
Record arena := mk_arena {
  normal_ptr : gmap nat Z;
  critical_ptr : gmap nat Z;
  vmalloc_live : gset Z;
  vmalloc_tape : list Z;
}.

Definition per_cpu (ptr : percpu_var) (cpu : nat) (s : arena) : Z :=
  match ptr with
  | sdei_stack_normal_ptr => default 0 (normal_ptr s !! cpu)
  | sdei_stack_critical_ptr => default 0 (critical_ptr s !! cpu)
  end.

Definition per_cpu_set (ptr : percpu_var) (cpu : nat) (p : Z) (s : arena) : arena :=
  match ptr with
  | sdei_stack_normal_ptr =>
      mk_arena (<[cpu := p]> (normal_ptr s)) (critical_ptr s)
               (vmalloc_live s) (vmalloc_tape s)
  | sdei_stack_critical_ptr =>
      mk_arena (normal_ptr s) (<[cpu := p]> (critical_ptr s))
               (vmalloc_live s) (vmalloc_tape s)
  end.

(** Modelled from the spec: [vfree] of mm/vmalloc.c, which releases the
    region; it stops being live. *)
Definition vfree (p : Z) (s : arena) : arena :=
  mk_arena (normal_ptr s) (critical_ptr s) (vmalloc_live s ∖ {[p]}) (vmalloc_tape s).

(** Modelled from the spec: [arch_alloc_vmap_stack] of asm/vmap_stack.h,
    an allocation that yields a region or fails with NULL.  Its outcome
    is the next one of the tape; a non-null result becomes live. *)
Definition arch_alloc_vmap_stack (s : arena) : Z * arena :=
  match vmalloc_tape s with
  | [] => (0, s)
  | p :: tape =>
      if p =? 0
      then (0, mk_arena (normal_ptr s) (critical_ptr s) (vmalloc_live s) tape)
      else (p, mk_arena (normal_ptr s) (critical_ptr s) ({[p]} ∪ vmalloc_live s) tape)
  end.

Section WithPlatform.
Context {plat : Platform}.

Definition _free_sdei_stack (ptr : percpu_var) (cpu : nat) (s : arena) : arena :=
  let p := per_cpu ptr cpu s in
  if p =? 0 then s
  else vfree p (per_cpu_set ptr cpu 0 s).

(** The body of the loop of [free_sdei_stacks], and the loop over a list
    of cpus. *)
Definition free_sdei_stacks_cpu (s : arena) (cpu : nat) : arena :=
  _free_sdei_stack sdei_stack_critical_ptr cpu
    (_free_sdei_stack sdei_stack_normal_ptr cpu s).

Definition free_sdei_stacks_on (cpus : list nat) (s : arena) : arena :=
  foldl free_sdei_stacks_cpu s cpus.

Definition free_sdei_stacks (s : arena) : arena :=
  free_sdei_stacks_on for_each_possible_cpu s.

(** [cpu_to_node] only picks the NUMA node the allocator prefers; the
    outcome of the request is the tape's. *)
Definition _init_sdei_stack (ptr : percpu_var) (cpu : nat) (s : arena) : Z * arena :=
  let '(p, s1) := arch_alloc_vmap_stack s in
  if p =? 0 then (- ENOMEM, s1)
  else (0, per_cpu_set ptr cpu p s1).

(** The loop of [init_sdei_stacks]: it stops at the first non-zero [err]
    and yields the last [err] assigned (0 initially). *)
Fixpoint init_sdei_stacks_on (cpus : list nat) (s : arena) : Z * arena :=
  match cpus with
  | [] => (0, s)
  | cpu :: rest =>
      let '(err, s1) := _init_sdei_stack sdei_stack_normal_ptr cpu s in
      if negb (err =? 0) then (err, s1)
      else
        let '(err, s2) := _init_sdei_stack sdei_stack_critical_ptr cpu s1 in
        if negb (err =? 0) then (err, s2)
        else init_sdei_stacks_on rest s2
  end.

Definition init_sdei_stacks (s : arena) : Z * arena :=
  let '(err, s1) := init_sdei_stacks_on for_each_possible_cpu s in
  if negb (err =? 0) then (err, free_sdei_stacks s1)
  else (err, s1).

(** [raw_cpu_read] reads the variable of the cpu the caller runs on. *)
Definition _on_sdei_stack (this_cpu : nat) (s : arena) (sp : Z) : bool :=
  if negb CONFIG_VMAP_STACK then false
  else
    let low := per_cpu sdei_stack_critical_ptr this_cpu s in
    let high := u64 (low + SDEI_STACK_SIZE) in
    if (low <=? sp) && (sp <? high) then true
    else
      let low := per_cpu sdei_stack_normal_ptr this_cpu s in
      let high := u64 (low + SDEI_STACK_SIZE) in
      (low <=? sp) && (sp <? high).

End WithPlatform.

End Arena.

(** ** Entry-point resolver *)

Module Resolver.
Import Arena.

(** The globals [sdei_arch_get_entry_point] can touch: the arena, the
    exit mode and the kernel log. *)
Record kernel := mk_kernel {
  mem : arena;
  sdei_exit_mode : Z;
  klog : list string;
}.

Definition pr_err (msg : string) (k : kernel) : kernel :=
  mk_kernel (mem k) (sdei_exit_mode k) (klog k ++ [msg]).

Section WithPlatform.
Context {plat : Platform}.

Definition sdei_arch_get_entry_point (conduit : Z) (k : kernel) : Z * kernel :=
  if is_hyp_mode_available && negb is_kernel_in_hyp_mode
  then (0, pr_err "sdei: Not supported on this hardware/boot configuration" k)
  else
    let '(err, m) :=
      if CONFIG_VMAP_STACK then init_sdei_stacks (mem k) else (0, mem k) in
    if negb (err =? 0) then (0, mk_kernel m (sdei_exit_mode k) (klog k))
    else
      (__sdei_asm_handler,
       mk_kernel m
         (if conduit =? CONDUIT_HVC then SDEI_EXIT_HVC else SDEI_EXIT_SMC)
         (klog k)).

End WithPlatform.
End Resolver.

(** ** Event dispatch *)

Module Dispatch.

(** [struct pt_regs], the fields this file reads or writes; [regs] has 31
    entries. *)
Record pt_regs := mk_pt_regs {
  regs : list Z;
  sp : Z;
  pc : Z;
  pstate : Z;
}.

Definition wf_pt_regs (r : pt_regs) : Prop := length (regs r) = 31%nat.

Definition set_reg (i : nat) (v : Z) (r : pt_regs) : pt_regs :=
  mk_pt_regs (<[i := v]> (regs r)) (sp r) (pc r) (pstate r).

(** System registers of the cpu that takes the event. *)
Record sysregs := mk_sysregs {
  elr_el1 : Z;
  CurrentEL : Z;
  vbar_el1 : Z;
  PSTATE_PAN : bool;
}.

Inductive event :=
  | Ev_nmi_enter
  | Ev_nmi_exit
  | Ev_sdei_event_handler
  | Ev_pr_warn (msg : string).

(** The cpu: its system registers, the NMI flag of its preempt count, and
    the calls made so far, oldest first. *)
Record cpu_state := mk_cpu {
  sys : sysregs;
  in_nmi : bool;
  trace : list event;
}.

Definition emit (e : event) (s : cpu_state) : cpu_state :=
  mk_cpu (sys s) (in_nmi s) (trace s ++ [e]).

(** Modelled from the spec: [nmi_enter] and [nmi_exit] of linux/hardirq.h,
    which flag and unflag the processor as being in an NMI-like context. *)
Definition nmi_enter (s : cpu_state) : cpu_state :=
  mk_cpu (sys s) true (trace s ++ [Ev_nmi_enter]).

Definition nmi_exit (s : cpu_state) : cpu_state :=
  mk_cpu (sys s) false (trace s ++ [Ev_nmi_exit]).

Section WithPlatform.
Context {plat : Platform}.

(** Modelled from the spec: [interrupts_enabled] of asm/ptrace.h,
    whether interrupts were enabled in the saved state: the I bit of the
    saved pstate is clear. *)
Definition interrupts_enabled (r : pt_regs) : bool :=
  Z.land (pstate r) PSR_I_BIT =? 0.

(** The [ALTERNATIVE]: [SET_PSTATE_PAN(1)] where the build and the cpu
    have PAN, [nop] elsewhere. *)
Definition set_pstate_pan (s : cpu_state) : cpu_state :=
  if CONFIG_ARM64_PAN && cpu_has_pan
  then mk_cpu (mk_sysregs (elr_el1 (sys s)) (CurrentEL (sys s))
                          (vbar_el1 (sys s)) true)
              (in_nmi s) (trace s)
  else s.

(** Collaborators: the event descriptor, the firmware query for a
    clobbered register ([sdei_api_event_context], the value it stores
    through its second argument) and [sdei_event_handler], which runs
    the registered callback on the snapshot it is handed and may change
    the snapshot and the system registers.  It sees the whole cpu state
    and leaves the NMI flag as it found it: an event nested in it has
    returned before it does. *)
Context {sdei_registered_event : Type}.
Variable sdei_api_event_context : Z -> Z.
Variable sdei_event_handler :
  pt_regs -> sdei_registered_event -> cpu_state -> Z * pt_regs * sysregs.

(** The first loop of [_sdei_handler], for [i] from [i0] up to
    [i0 + n - 1]. *)
Fixpoint retrieve_registers (n : nat) (i0 : nat) (r : pt_regs) : pt_regs :=
  match n with
  | O => r
  | S n' =>
      retrieve_registers n' (S i0)
        (set_reg i0 (sdei_api_event_context (Z.of_nat i0)) r)
  end.

Definition clobbered_registers : nat := 4.

Definition _sdei_handler (r : pt_regs) (arg : sdei_registered_event)
    (s : cpu_state) : Z * pt_regs * cpu_state :=
  let elr := elr_el1 (sys s) in
  let kernel_mode := u32 (Z.lor (CurrentEL (sys s)) 1) in
  let vbar := vbar_el1 (sys s) in
  let r1 := retrieve_registers clobbered_registers 0 r in
  let s1 := set_pstate_pan s in
  let '(err, r2, sys2) := sdei_event_handler r1 arg s1 in
  let s2 := mk_cpu sys2 (in_nmi s1) (trace s1 ++ [Ev_sdei_event_handler]) in
  if negb (err =? 0) then (SDEI_EV_FAILED, r2, s2)
  else
    let s3 :=
      if negb (elr =? elr_el1 (sys s2))
      then emit (Ev_pr_warn "sdei: unsafe: exception during handler") s2
      else s2 in
    let mode := u32 (Z.land (pstate r2) (Z.lor PSR_MODE32_BIT PSR_MODE_MASK)) in
    if (mode =? kernel_mode) && negb (interrupts_enabled r2)
    then (SDEI_EV_HANDLED, r2, s3)
    else if mode =? kernel_mode then (u64 (vbar + 0x280), r2, s3)
    else if negb (Z.land mode PSR_MODE32_BIT =? 0)
    then (u64 (vbar + 0x680), r2, s3)
    else (u64 (vbar + 0x480), r2, s3).

Definition __sdei_handler (r : pt_regs) (arg : sdei_registered_event)
    (s : cpu_state) : Z * pt_regs * cpu_state :=
  let '(s1, do_nmi_exit) :=
    if negb (in_nmi s) then (nmi_enter s, true) else (s, false) in
  let '(ret, r', s2) := _sdei_handler r arg s1 in
  let s3 := if do_nmi_exit then nmi_exit s2 else s2 in
  (ret, r', s3).

End WithPlatform.
End Dispatch.

(** ** The dispositions of the specification

    [_sdei_handler] returns an [unsigned long]; firmware reads it as one
    of two sentinels or, for any other value, as the address to resume
    at. *)

Inductive disposition :=
  | Handled
  | Failed
  | Redirect (address : Z).

Section Dispositions.
Context {plat : Platform}.

Definition ret_of_disposition (d : disposition) : Z :=
  match d with
  | Handled => SDEI_EV_HANDLED
  | Failed => SDEI_EV_FAILED
  | Redirect address => address
  end.

(** Modelled from the spec: how firmware reads the value returned, one
    of the two sentinels or else the address to resume at. *)
Definition disposition_of_ret (ret : Z) : disposition :=
  if ret =? SDEI_EV_HANDLED then Handled
  else if ret =? SDEI_EV_FAILED then Failed
  else Redirect ret.

(** The saved mode bits of a pstate, and the mode of the dispatcher
    itself: its exception level with its own stack selection. *)
Definition saved_mode (pstate : Z) : Z :=
  u32 (Z.land pstate (Z.lor PSR_MODE32_BIT PSR_MODE_MASK)).

Definition dispatcher_mode (s : Dispatch.sysregs) : Z :=
  u32 (Z.lor (Dispatch.CurrentEL s) 1).

Definition interrupts_masked (pstate : Z) : bool :=
  negb (Z.land pstate PSR_I_BIT =? 0).

Definition mode_is_32bit (pstate : Z) : bool :=
  negb (Z.land (saved_mode pstate) PSR_MODE32_BIT =? 0).

(** Step 6 of the dispatcher as the specification words it, on a saved
    pstate, for a dispatcher running in [kernel_mode] with vector base
    [vbar]. *)
Definition disposition_of (kernel_mode vbar pstate : Z) : disposition :=
  if saved_mode pstate =? kernel_mode then
    if interrupts_masked pstate then Handled
    else Redirect (vbar + 0x280)
  else if mode_is_32bit pstate then Redirect (vbar + 0x680)
  else Redirect (vbar + 0x480).

(** The state a dispatch ends in once the callback has returned: the
    system registers are the callback's, the NMI flag is untouched, and
    the trace gains the call, then the warning when ELR_EL1 differs from
    the value read on entry. *)
Definition state_after_callback (s : Dispatch.cpu_state)
    (sys2 : Dispatch.sysregs) (warned : bool) : Dispatch.cpu_state :=
  Dispatch.mk_cpu sys2 (Dispatch.in_nmi s)
    (Dispatch.trace s ++ Dispatch.Ev_sdei_event_handler
       :: (if warned
           then [Dispatch.Ev_pr_warn "sdei: unsafe: exception during handler"]
           else [])).

(** VBAR_EL1 holds a 64-bit address aligned to 2KB. *)
Definition wf_vbar (vbar : Z) : Prop :=
  0 <= vbar < 2 ^ 64 /\ vbar mod 2048 = 0.

End Dispositions.

(** ** The arena seen slot by slot

    Both loops of the arena visit, for each cpu, the normal and then the
    critical variable.  Reasoning is simpler over the list of the
    (variable, cpu) slots they visit. *)

Module Slots.
Import Arena.

Definition slot : Type := percpu_var * nat.

Definition cpu_slots (cpus : list nat) : list slot :=
  flat_map (fun cpu => [(sdei_stack_normal_ptr, cpu);
                        (sdei_stack_critical_ptr, cpu)]) cpus.

Definition slot_value (sl : slot) (s : arena) : Z := per_cpu sl.1 sl.2 s.

(** Region [p] is recorded in one of the slots. *)
Definition held (slots : list slot) (s : arena) (p : Z) : Prop :=
  p ≠ 0 ∧ ∃ sl, sl ∈ slots ∧ slot_value sl s = p.

Section WithPlatform.
Context {plat : Platform}.

Definition free_slots (slots : list slot) (s : arena) : arena :=
  foldl (fun s sl => _free_sdei_stack sl.1 sl.2 s) s slots.

Fixpoint init_slots (slots : list slot) (s : arena) : Z * arena :=
  match slots with
  | [] => (0, s)
  | sl :: rest =>
      let '(err, s1) := _init_sdei_stack sl.1 sl.2 s in
      if negb (err =? 0) then (err, s1) else init_slots rest s1
  end.

End WithPlatform.
End Slots.

(** A region of [SDEI_STACK_SIZE] bytes at [base] lies inside the 64-bit
    address space and ends below its top. *)
Definition region_in_address_space {plat : Platform} (base : Z) : Prop :=
  0 <= base /\ 0 <= SDEI_STACK_SIZE /\ base + SDEI_STACK_SIZE < 2 ^ 64.

(** Half-open range membership, as the specification words it. *)
Definition in_region {plat : Platform} (base sp : Z) : Prop :=
  base <= sp < base + SDEI_STACK_SIZE.

(** One range comparison of [_on_sdei_stack]. *)
Definition range_check {plat : Platform} (base sp : Z) : bool :=
  (base <=? sp) && (sp <? u64 (base + SDEI_STACK_SIZE)).

(** Entry-point resolution fails: the privilege-level check fails, or
    stacks are vmap'd and arming them fails. *)
Definition resolution_fails {plat : Platform} (k : Resolver.kernel) : bool :=
  (is_hyp_mode_available && negb is_kernel_in_hyp_mode)
  || (CONFIG_VMAP_STACK
      && negb ((Arena.init_sdei_stacks (Resolver.mem k)).1 =? 0)).

(** No possible cpu has a stack recorded: the arena as it is at boot. *)
Definition unarmed {plat : Platform} (s : Arena.arena) : Prop :=
  ∀ cpu v, cpu ∈ for_each_possible_cpu → Arena.per_cpu v cpu s = 0.

(** The outcome of the [j]-th allocation request to come: 0 when it
    fails. *)
Definition request_outcome (s : Arena.arena) (j : nat) : Z :=
  default 0 (Arena.vmalloc_tape s !! j).

(** The allocator never hands out a region that is still live. *)
Definition tape_fresh (s : Arena.arena) : Prop :=
  ∀ p, p ∈ Arena.vmalloc_tape s → p ≠ 0 → p ∉ Arena.vmalloc_live s.

(** ** Concrete configurations

    An arm64 build with the values of the kernel headers: four possible
    cpus, 16KB stacks.  The arguments choose whether stacks are
    vmap'd and how the kernel was booted. *)

Definition arm64 (vmap_stack hyp_available in_hyp : bool) : Platform := {|
  PSR_MODE32_BIT := 0x10;
  PSR_MODE_MASK := 0xf;
  PSR_I_BIT := 0x80;
  SDEI_EV_HANDLED := 0;
  SDEI_EV_FAILED := 1;
  SDEI_STACK_SIZE := 16384;
  ENOMEM := 12;
  CONDUIT_HVC := 2;
  SDEI_EXIT_HVC := 0;
  SDEI_EXIT_SMC := 1;
  __sdei_asm_handler := 0xffff000008083000;
  CONFIG_VMAP_STACK := vmap_stack;
  CONFIG_ARM64_PAN := true;
  nr_cpu_ids := 4;
  cpu_possible_mask := 0xf;
  is_hyp_mode_available := hyp_available;
  is_kernel_in_hyp_mode := in_hyp;
  cpu_has_pan := true;
|}.

(** The arena at boot, with the outcomes of the requests to come. *)
Definition boot_arena (tape : list Z) : Arena.arena :=
  Arena.mk_arena ∅ ∅ ∅ tape.

(** Cpu 0 gets both stacks, cpu 1 its normal stack, and the request for
    the critical stack of cpu 1 fails. *)
Definition arena_failing_at_cpu1 : Arena.arena :=
  boot_arena [0xffff00000a000000; 0xffff00000a010000; 0xffff00000a020000; 0;
              0xffff00000a030000].

(** Cpus 0 and 2 armed, the others not. *)
Definition arena_partly_armed : Arena.arena :=
  Arena.mk_arena
    {[ 0%nat := 0xffff00000a000000; 2%nat := 0xffff00000a040000 ]}
    {[ 0%nat := 0xffff00000a010000; 2%nat := 0xffff00000a050000 ]}
    {[ 0xffff00000a000000; 0xffff00000a010000;
       0xffff00000a040000; 0xffff00000a050000 ]}
    [].

(** The kernel before [sdei_arch_get_entry_point] has run, the exit mode
    holding a recognisable value. *)
Definition kernel_at_boot (tape : list Z) : Resolver.kernel :=
  Resolver.mk_kernel (boot_arena tape) 7 [].

(** A cpu at EL1 ([CurrentEL] holds the level in bits 3:2) taking an
    event, and a snapshot whose registers are all zero. *)
Definition cpu_el1 (nmi : bool) : Dispatch.cpu_state :=
  Dispatch.mk_cpu
    (Dispatch.mk_sysregs 0xffff000008123456 4 0xffff000008081000 false)
    nmi [].

Definition zero_regs (pstate : Z) : Dispatch.pt_regs :=
  Dispatch.mk_pt_regs (replicate 31 0) 0 0 pstate.

(** Firmware's answers to the register queries. *)
Definition fw_context (i : Z) : Z := 0xa0 + i.

(** Callbacks: one that succeeds and touches nothing, one that fails
    with -EINVAL, one that succeeds after masking interrupts in the
    saved pstate, and one that fails after overwriting register 0. *)
Definition cb_ok (r : Dispatch.pt_regs) (arg : unit) (s : Dispatch.cpu_state)
    : Z * Dispatch.pt_regs * Dispatch.sysregs :=
  (0, r, Dispatch.sys s).

Definition cb_fail (r : Dispatch.pt_regs) (arg : unit) (s : Dispatch.cpu_state)
    : Z * Dispatch.pt_regs * Dispatch.sysregs :=
  (-22, r, Dispatch.sys s).

Definition cb_mask_irq (r : Dispatch.pt_regs) (arg : unit)
    (s : Dispatch.cpu_state) : Z * Dispatch.pt_regs * Dispatch.sysregs :=
  (0,
   Dispatch.mk_pt_regs (Dispatch.regs r) (Dispatch.sp r) (Dispatch.pc r)
     (Z.lor (Dispatch.pstate r) 0x80),
   Dispatch.sys s).


(** A callback that fails with -EINVAL after writing 0x63 to register 0
    of the snapshot. *)
Definition cb_fail_writing_x0 (r : Dispatch.pt_regs) (arg : unit)
    (s : Dispatch.cpu_state) : Z * Dispatch.pt_regs * Dispatch.sysregs :=
  (-22, Dispatch.set_reg 0 0x63 r, Dispatch.sys s).

(** A callback that succeeds but took a synchronous exception: ELR_EL1
    no longer holds what it held on entry. *)
Definition cb_faulting (r : Dispatch.pt_regs) (arg : unit)
    (s : Dispatch.cpu_state) : Z * Dispatch.pt_regs * Dispatch.sysregs :=
  (0, r,
   Dispatch.mk_sysregs 0xffff000008200000
     (Dispatch.CurrentEL (Dispatch.sys s))
     (Dispatch.vbar_el1 (Dispatch.sys s))
     (Dispatch.PSTATE_PAN (Dispatch.sys s))).

(** Eight requests that succeed: enough for four cpus. *)
Definition tape_for_four_cpus : list Z :=
  [0xffff00000a000000; 0xffff00000a010000; 0xffff00000a020000;
   0xffff00000a030000; 0xffff00000a040000; 0xffff00000a050000;
   0xffff00000a060000; 0xffff00000a070000].

Definition arm64_vmap : Platform := arm64 true false false.
Definition arm64_novmap : Platform := arm64 false false false.

(** Sixteen requests that succeed: enough to arm four cpus twice. *)
Definition tape_for_two_armings : list Z :=
  tape_for_four_cpus
  ++ [0xffff00000b000000; 0xffff00000b010000; 0xffff00000b020000;
      0xffff00000b030000; 0xffff00000b040000; 0xffff00000b050000;
      0xffff00000b060000; 0xffff00000b070000].

(** The arena after one arming that succeeded, with eight more requests
    ready to succeed. *)
Definition arena_armed : Arena.arena :=
  (Arena.init_sdei_stacks (plat := arm64_vmap)
     (boot_arena tape_for_two_armings)).2.

(** An arena whose critical stack of cpu 0 ends at the very top of the
    address space. *)
Definition arena_top_of_memory : Arena.arena :=
  Arena.mk_arena {[ 0%nat := 0xffff00000a000000 ]}
                 {[ 0%nat := 0xffffffffffffc000 ]}
                 {[ 0xffff00000a000000; 0xffffffffffffc000 ]} [].

(** * samples/wrapdrive/wd_comp.c: the compression sample

    [wd_create_comp_ctx], [wd_do_comp] and [wd_del_comp_ctx].  The two
    remaining functions of the file, [wd_comp_op] and [wd_comp_poll],
    name members that [struct wd_comp_ctx] and [struct wd_comp_msg] do
    not have, and are left out.

    Pointers are addresses in [Z], 0 for NULL; user memory maps the
    addresses of live objects to their contents.  A result of [None]
    stands for a run that has no defined behaviour in C: an access
    through a pointer that is neither NULL nor that of a live object, or
    a copy past the end of [alg]. *)

Module Wd.

Definition u8 (x : Z) : Z := x mod 2 ^ 8.

(** The value an [int] takes when a [__u32] is stored into it. *)
Definition int_of_u32 (x : Z) : Z := (x + 2 ^ 31) mod 2 ^ 32 - 2 ^ 31.

(** [struct wd_comp_msg] of wd_comp.h; [alg] is the union of the
    algorithm pointer and [pading]. *)
Record wd_comp_msg := mk_msg {
  alg : Z;
  aflags : Z;
  in_coms : Z;
  in_bytes : Z;
  out_bytes : Z;
  src : Z;
  dst : Z;
  comp_lv : Z;
  file_type : Z;
  humm_type : Z;
  op_type : Z;
  win_size : Z;
  cflags : Z;
  resv1 : Z;
  resv2 : Z;
}.

(** A message after [memset(.., 0, ..)]. *)
Definition zero_msg : wd_comp_msg := mk_msg 0 0 0 0 0 0 0 0 0 0 0 0 0 0 0.

(** [struct wd_comp_ctx_setup], declared outside src/: the members
    [wd_create_comp_ctx] reads. *)
Record wd_comp_ctx_setup := mk_setup {
  setup_aflags : Z;
  setup_comp_lv : Z;
  setup_humm_type : Z;
  setup_win_size : Z;
  setup_file_type : Z;
  setup_cb : Z;
}.

(** [struct wd_queue], declared outside src/: the members this file
    uses, [capa.alg] as the characters of the string before its NUL. *)
Record wd_queue := mk_queue {
  capa_alg : list Z;
  queue_ctx : Z;
}.

(** [struct wd_comp_ctx]; [ctx_alg] is the array [alg[32]]. *)
Record wd_comp_ctx := mk_ctx {
  cache_msg : wd_comp_msg;
  ctx_q : Z;
  ctx_cb : Z;
  ctx_alg : list Z;
}.

(** A line printed by [WD_ERR]: its format and its arguments. *)
Inductive wd_err_line := WD_ERR (fmt : string) (args : list Z).

(** User memory: the live queues, setups and contexts by address, the
    outcomes of the [malloc] calls to come (0 for one that fails, as is
    one made after the tape ran out), and what [WD_ERR] printed. *)
Record umem := mk_umem {
  queues : gmap Z wd_queue;
  setups : gmap Z wd_comp_ctx_setup;
  ctxs : gmap Z wd_comp_ctx;
  malloc_tape : list Z;
  wd_err : list wd_err_line;
}.

Definition log (fmt : string) (args : list Z) (m : umem) : umem :=
  mk_umem (queues m) (setups m) (ctxs m) (malloc_tape m)
          (wd_err m ++ [WD_ERR fmt args]).

(** Modelled from the spec: [malloc], an allocation that yields an
    address or fails with NULL. *)
Definition malloc (m : umem) : Z * umem :=
  match malloc_tape m with
  | [] => (0, m)
  | p :: tape => (p, mk_umem (queues m) (setups m) (ctxs m) tape (wd_err m))
  end.

(** The layout of a struct on an LP64 target such as arm64: each member,
    given by its size and its alignment, goes at the next offset that
    is a multiple of its alignment. *)
Definition align_up (off al : Z) : Z := (off + al - 1) / al * al.

Fixpoint member_offsets (off : Z) (members : list (Z * Z)) : list Z :=
  match members with
  | [] => []
  | (size, al) :: rest =>
      align_up off al :: member_offsets (align_up off al + size) rest
  end.

Fixpoint members_end (off : Z) (members : list (Z * Z)) : Z :=
  match members with
  | [] => off
  | (size, al) :: rest => members_end (align_up off al + size) rest
  end.

Definition sizeof_struct (members : list (Z * Z)) : Z :=
  align_up (members_end 0 members) (foldr Z.max 1 (snd <$> members)).

(** The members of [struct wd_comp_msg], in order: the pointer union,
    four [__u32], two [__u64], four [__u8], three [__u32] and a
    [__u64]. *)
Definition wd_comp_msg_members : list (Z * Z) :=
  [(8, 8); (4, 4); (4, 4); (4, 4); (4, 4); (8, 8); (8, 8);
   (1, 1); (1, 1); (1, 1); (1, 1); (4, 4); (4, 4); (4, 4); (8, 8)].

(** The members of [struct wd_comp_ctx]: [cache_msg], the pointers [q]
    and [cb], and [alg[32]]. *)
Definition wd_comp_ctx_members : list (Z * Z) :=
  [(sizeof_struct wd_comp_msg_members, 8); (8, 8); (8, 8); (32, 1)].

Definition sizeof_wd_comp_ctx : Z := sizeof_struct wd_comp_ctx_members.

(** [offsetof(struct wd_comp_ctx, alg)], the offset of the fourth
    member. *)
Definition offsetof_alg : Z :=
  default 0 (member_offsets 0 wd_comp_ctx_members !! 3%nat).

Section WithLayout.

(** [offsetof(struct wd_comp_ctx, alg)]. *)
Variable alg_offset : Z.

Definition wd_create_comp_ctx (q setup : Z) (m : umem) : option (Z * umem) :=
  if (q =? 0) || (setup =? 0)
  then Some (0, log "%s(): input param err!" [] m)
  else
    let '(ctx, m1) := malloc m in
    if ctx =? 0 then Some (0, log "Alloc ctx memory fail!" [] m1)
    else
      match queues m1 !! q, setups m1 !! setup with
      | Some qv, Some sv =>
          if (32 <? length (capa_alg qv))%nat then None
          else
            let msg :=
              mk_msg (ctx + alg_offset) (u32 (setup_aflags sv)) 0 0 0 0 0
                     (u8 (setup_comp_lv sv)) (u8 (setup_file_type sv))
                     (u8 (setup_humm_type sv)) 0 (u32 (setup_win_size sv))
                     0 0 0 in
            let c :=
              mk_ctx msg q (setup_cb sv)
                     (capa_alg qv
                      ++ replicate (32 - length (capa_alg qv)) 0) in
            Some (ctx,
                  mk_umem (<[q := mk_queue (capa_alg qv) ctx]> (queues m1))
                          (setups m1) (<[ctx := c]> (ctxs m1))
                          (malloc_tape m1) (wd_err m1))
      | _, _ => None
      end.

End WithLayout.

(** [free] of a live context; of anything else that is not NULL it has
    no defined behaviour. *)
Definition wd_del_comp_ctx (ctx : Z) (m : umem) : option umem :=
  if ctx =? 0 then Some m
  else
    match ctxs m !! ctx with
    | Some _ =>
        Some (mk_umem (queues m) (setups m) (delete ctx (ctxs m))
                      (malloc_tape m) (wd_err m))
    | None => None
    end.

Section WithQueue.

(** Collaborators of wd.h, declared outside src/: the device and its
    queues are a state of type [device]; [wd_send] is handed the queue
    and the message and yields its return code; [wd_recv_sync] yields
    its return code and the message its second argument is made to
    point to. *)
Context {device : Type}.
Variable wd_send : Z → wd_comp_msg → device → Z * device.
Variable wd_recv_sync : Z → device → Z * wd_comp_msg * device.

(** The message [wd_do_comp] hands to [wd_send]. *)
Definition request (c : wd_comp_ctx) (cflush in_ in_bytes out : Z)
    : wd_comp_msg :=
  let m := cache_msg c in
  mk_msg (alg m) (aflags m) (in_coms m) (u32 in_bytes) (out_bytes m)
         (u64 in_) (u64 out) (comp_lv m) (file_type m) (humm_type m)
         (op_type m) (win_size m) (u32 cflush) (resv1 m) (resv2 m).

(** [cflush], [comsumed] and [out_bytes_] stand for what the pointers
    [cflush], [comsumed] and [out_bytes] point to, three distinct
    objects, before the call in the arguments and after it in the
    result. *)
Definition wd_do_comp (ctx : Z) (cflush in_ in_bytes_ comsumed out
    out_bytes_ : Z) (m : umem) (d : device)
    : option (Z * (Z * Z * Z) * umem * device) :=
  match ctxs m !! ctx with
  | None => None
  | Some c =>
      let msg := request c cflush in_ in_bytes_ out in
      let m1 :=
        mk_umem (queues m) (setups m)
                (<[ctx := mk_ctx msg (ctx_q c) (ctx_cb c) (ctx_alg c)]> (ctxs m))
                (malloc_tape m) (wd_err m) in
      let '(ret, d1) := wd_send (ctx_q c) msg d in
      if negb (ret =? 0)
      then Some (ret, (cflush, comsumed, out_bytes_),
                 log "%s():wd_send err!" [] m1, d1)
      else
        let '(ret, resp, d2) := wd_recv_sync (ctx_q c) d1 in
        if negb (ret =? 1)
        then Some (ret, (cflush, comsumed, out_bytes_),
                   log "%s():wd_recv_sync err!ret=%d" [ret] m1, d2)
        else Some (0,
                   (u32 (cflags resp), int_of_u32 (in_coms resp),
                    int_of_u32 (out_bytes resp)),
                   m1, d2)
  end.

End WithQueue.

(** The message a first request on a context created at [p] from the
    setup [sv] is expected to be: [alg] is the address of the context's
    array, 80 bytes into it. *)
Definition first_request (p : Z) (sv : wd_comp_ctx_setup)
    (cflush in_ in_bytes_ out : Z) : wd_comp_msg :=
  mk_msg (p + 80) (u32 (setup_aflags sv)) 0 (u32 in_bytes_) 0
         (u64 in_) (u64 out) (u8 (setup_comp_lv sv))
         (u8 (setup_file_type sv)) (u8 (setup_humm_type sv)) 0
         (u32 (setup_win_size sv)) (u32 cflush) 0 0.

End Wd.

(** ** A queue, a setup and a device for the sample *)

(** A queue at 0x1000 whose algorithm is "zlib", a setup at 0x2000, and
    one [malloc] that succeeds. *)
Definition wd_mem : Wd.umem :=
  Wd.mk_umem {[ 0x1000 := Wd.mk_queue [122; 108; 105; 98] 0 ]}
             {[ 0x2000 := Wd.mk_setup 1 9 2 32768 3 0x400100 ]}
             ∅ [0x3000] [].

(** User memory after the context was created at 0x3000. *)
Definition wd_mem_with_ctx : Wd.umem :=
  default wd_mem
    (snd <$> Wd.wd_create_comp_ctx Wd.offsetof_alg 0x1000 0x2000 wd_mem).

(** The context created at 0x3000. *)
Definition wd_ctx_created : Wd.wd_comp_ctx :=
  default (Wd.mk_ctx Wd.zero_msg 0 0 [])
          (Wd.ctxs wd_mem_with_ctx !! 0x3000).

(** A device that records what it is sent; one that refuses with
    -EBUSY; one that answers the last message, 100 bytes out for all
    bytes in; and one that has no answer and returns 0. *)
Definition dev_send (q : Z) (msg : Wd.wd_comp_msg) (d : list Wd.wd_comp_msg)
    : Z * list Wd.wd_comp_msg :=
  (0, d ++ [msg]).

Definition dev_send_busy (q : Z) (msg : Wd.wd_comp_msg)
    (d : list Wd.wd_comp_msg) : Z * list Wd.wd_comp_msg :=
  (-16, d).

Definition dev_recv (q : Z) (d : list Wd.wd_comp_msg)
    : Z * Wd.wd_comp_msg * list Wd.wd_comp_msg :=
  let m := default Wd.zero_msg (last d) in
  (1,
   Wd.mk_msg (Wd.alg m) (Wd.aflags m) (Wd.in_bytes m) (Wd.in_bytes m) 100
     (Wd.src m) (Wd.dst m) (Wd.comp_lv m) (Wd.file_type m) (Wd.humm_type m)
     (Wd.op_type m) (Wd.win_size m) 4 0 0,
   d).

Definition dev_recv_nothing (q : Z) (d : list Wd.wd_comp_msg)
    : Z * Wd.wd_comp_msg * list Wd.wd_comp_msg :=
  (0, Wd.zero_msg, d).

(** * Properties of the stack arena *)

Section ArenaFacts.
Import Arena.
Context {plat : Platform}.

Lemma per_cpu_set_eq v c p s : per_cpu v c (per_cpu_set v c p s) = p.
Proof. destruct v; simpl; by rewrite lookup_insert_eq. Qed.

Lemma per_cpu_set_other v c v' c' p s :
  v ≠ v' ∨ c ≠ c' → per_cpu v c (per_cpu_set v' c' p s) = per_cpu v c s.
Proof.
  intros Hne. destruct v, v'; simpl; try done;
    (rewrite lookup_insert_ne; [done | intros ->; destruct Hne; done]).
Qed.

Lemma per_cpu_free v c v' c' s :
  per_cpu v c (_free_sdei_stack v' c' s)
  = if decide (v = v' ∧ c = c') then 0 else per_cpu v c s.
Proof.
  unfold _free_sdei_stack.
  destruct (Z.eqb_spec (per_cpu v' c' s) 0) as [Hz | Hnz].
  - case_decide as Heq; [destruct Heq as [-> ->]|]; done.
  - change (per_cpu v c (vfree (per_cpu v' c' s) (per_cpu_set v' c' 0 s)))
      with (per_cpu v c (per_cpu_set v' c' 0 s)).
    case_decide as Heq.
    + destruct Heq as [-> ->]. apply per_cpu_set_eq.
    + apply per_cpu_set_other.
      destruct (decide (v = v')); [right | left]; naive_solver.
Qed.

Lemma live_free v c s p :
  p ∈ vmalloc_live (_free_sdei_stack v c s)
  ↔ p ∈ vmalloc_live s ∧ (per_cpu v c s = 0 ∨ per_cpu v c s ≠ p).
Proof.
  unfold _free_sdei_stack.
  destruct (Z.eqb_spec (per_cpu v c s) 0) as [Hz | Hnz].
  - naive_solver.
  - assert (vmalloc_live (vfree (per_cpu v c s) (per_cpu_set v c 0 s))
            = vmalloc_live s ∖ {[per_cpu v c s]}) as ->
      by (destruct v; reflexivity).
    set_solver.
Qed.

Lemma free_null v c s : per_cpu v c s = 0 → _free_sdei_stack v c s = s.
Proof. intros Hz. unfold _free_sdei_stack. by rewrite Hz. Qed.

Lemma per_cpu_free_cpu v c c' s :
  per_cpu v c (free_sdei_stacks_cpu s c')
  = if decide (c = c') then 0 else per_cpu v c s.
Proof.
  unfold free_sdei_stacks_cpu. rewrite !per_cpu_free.
  repeat case_decide; destruct v; naive_solver.
Qed.

Lemma free_on_keeps_null cpus : ∀ s v c,
  per_cpu v c s = 0 → per_cpu v c (free_sdei_stacks_on cpus s) = 0.
Proof.
  induction cpus as [| c' cpus IH]; intros s v c Hz; simpl; [done|].
  apply IH. rewrite per_cpu_free_cpu. by case_decide.
Qed.

Lemma free_on_nulls cpus : ∀ s v c,
  c ∈ cpus → per_cpu v c (free_sdei_stacks_on cpus s) = 0.
Proof.
  induction cpus as [| c' cpus IH]; intros s v c Hin.
  - by apply elem_of_nil in Hin.
  - simpl. apply elem_of_cons in Hin as [-> | Hin].
    + apply free_on_keeps_null. rewrite per_cpu_free_cpu. by case_decide.
    + by apply IH.
Qed.

Lemma free_on_unarmed cpus : ∀ s,
  (∀ c v, c ∈ cpus → per_cpu v c s = 0) → free_sdei_stacks_on cpus s = s.
Proof.
  induction cpus as [| c' cpus IH]; intros s Hz; simpl; [done|].
  assert (free_sdei_stacks_cpu s c' = s) as ->.
  { unfold free_sdei_stacks_cpu.
    rewrite (free_null sdei_stack_normal_ptr) by (apply Hz; left).
    apply free_null, Hz. left. }
  apply IH. intros c v Hin. apply Hz. by right.
Qed.

End ArenaFacts.

Section SlotFacts.
Import Arena Slots.
Context {plat : Platform}.

Lemma elem_of_cpu_slots v c cpus : (v, c) ∈ cpu_slots cpus ↔ c ∈ cpus.
Proof.
  induction cpus as [| c' cpus IH]; simpl.
  - split; intros Hin; by apply elem_of_nil in Hin.
  - rewrite !elem_of_cons, IH. destruct v; naive_solver.
Qed.

Lemma NoDup_cpu_slots cpus : NoDup cpus → NoDup (cpu_slots cpus).
Proof.
  induction 1 as [| c cpus Hnotin Hnd IH]; simpl; [constructor|].
  apply NoDup_cons. split.
  - rewrite elem_of_cons, elem_of_cpu_slots. naive_solver.
  - apply NoDup_cons. split; [| done].
    by rewrite elem_of_cpu_slots.
Qed.

Lemma NoDup_for_each_possible_cpu : NoDup for_each_possible_cpu.
Proof. apply NoDup_filter, NoDup_seq. Qed.

Lemma free_on_slots cpus : ∀ s,
  free_sdei_stacks_on cpus s = free_slots (cpu_slots cpus) s.
Proof.
  induction cpus as [| c cpus IH]; intros s; [done|].
  simpl. apply IH.
Qed.

Lemma init_on_slots cpus : ∀ s,
  init_sdei_stacks_on cpus s = init_slots (cpu_slots cpus) s.
Proof.
  induction cpus as [| c cpus IH]; intros s; [done|].
  simpl.
  destruct (_init_sdei_stack sdei_stack_normal_ptr c s) as [err s1].
  destruct (negb (err =? 0)); [done|].
  destruct (_init_sdei_stack sdei_stack_critical_ptr c s1) as [err' s2].
  destruct (negb (err' =? 0)); [done|]. apply IH.
Qed.

Lemma slot_value_free sl sl' s :
  slot_value sl (_free_sdei_stack sl'.1 sl'.2 s)
  = if decide (sl = sl') then 0 else slot_value sl s.
Proof.
  destruct sl as [v c], sl' as [v' c']. unfold slot_value; simpl.
  rewrite per_cpu_free. repeat case_decide; naive_solver.
Qed.

Lemma live_free_slots slots : ∀ s p,
  p ∈ vmalloc_live (free_slots slots s) ↔ p ∈ vmalloc_live s ∧ ¬ held slots s p.
Proof.
  induction slots as [| sl slots IH]; intros s p.
  - simpl. unfold held. split; [| naive_solver].
    intros Hp. split; [done|]. intros (_ & sl & Hin & _).
    by apply elem_of_nil in Hin.
  - change (free_slots (sl :: slots) s)
      with (free_slots slots (_free_sdei_stack sl.1 sl.2 s)).
    rewrite IH, live_free. unfold held.
    change (per_cpu sl.1 sl.2 s) with (slot_value sl s).
    split.
    + intros ((Hlive & Hsl) & Hrest). split; [done|].
      intros (Hnz & sl' & Hin & Hval).
      apply elem_of_cons in Hin as [-> | Hin]; [naive_solver|].
      apply Hrest. split; [done|]. exists sl'. split; [done|].
      rewrite slot_value_free. case_decide; [naive_solver | done].
    + intros (Hlive & Hnot). split; [split; [done|] |].
      * destruct (decide (slot_value sl s = 0)); [by left | right].
        intros Heq. apply Hnot. split; [congruence|].
        exists sl. split; [left | done].
      * intros (Hnz & sl' & Hin & Hval). apply Hnot. split; [done|].
        exists sl'. split; [by right|].
        rewrite slot_value_free in Hval. by case_decide.
Qed.

End SlotFacts.

Section InitFacts.
Import Arena Slots.
Context {plat : Platform}.

(** One allocation request: a failure changes only the tape; a success
    records a region of the tape in the slot and makes it live. *)
Lemma init_one_spec sl s err s1 :
  _init_sdei_stack sl.1 sl.2 s = (err, s1) →
  (∀ sl', sl' ≠ sl → slot_value sl' s1 = slot_value sl' s)
  ∧ (∀ q, q ∈ vmalloc_tape s1 → q ∈ vmalloc_tape s)
  ∧ ((err = - ENOMEM ∧ slot_value sl s1 = slot_value sl s
      ∧ vmalloc_live s1 = vmalloc_live s)
     ∨ (err = 0 ∧ slot_value sl s1 ≠ 0
        ∧ slot_value sl s1 ∈ vmalloc_tape s
        ∧ vmalloc_live s1 = {[slot_value sl s1]} ∪ vmalloc_live s)).
Proof.
  destruct sl as [v c]. unfold _init_sdei_stack, arch_alloc_vmap_stack; simpl.
  destruct (vmalloc_tape s) as [| p tape] eqn:Htape.
  - simpl. intros [= <- <-]. rewrite Htape. naive_solver.
  - destruct (Z.eqb_spec p 0) as [-> | Hnz].
    + simpl. intros [= <- <-]. split; [done|]. split.
      * simpl. intros q Hq. by right.
      * left. by destruct v.
    + apply Z.eqb_neq in Hnz as Hnzb. rewrite Hnzb.
      intros [= <- <-]. split; [| split].
      * intros [v' c'] Hne. unfold slot_value; simpl.
        rewrite per_cpu_set_other; [by destruct v'|].
        destruct (decide (v' = v)); [right | left]; naive_solver.
      * destruct v; simpl; intros q Hq; by right.
      * right. unfold slot_value; simpl. rewrite per_cpu_set_eq.
        split; [done|]. split; [done|]. split; [left|].
        by destruct v.
Qed.

(** The allocation loop over slots that are distinct and empty: what is
    live afterwards is what was live before plus what the slots record,
    and the slots record nothing but regions of the tape. *)
Lemma init_slots_spec slots :
  NoDup slots → ∀ s err s1,
  init_slots slots s = (err, s1) →
  (∀ sl, sl ∈ slots → slot_value sl s = 0) →
  (∀ p, p ∈ vmalloc_live s1 ↔ p ∈ vmalloc_live s ∨ held slots s1 p)
  ∧ (∀ sl, sl ∈ slots →
       slot_value sl s1 = 0 ∨ slot_value sl s1 ∈ vmalloc_tape s)
  ∧ (∀ sl, sl ∉ slots → slot_value sl s1 = slot_value sl s)
  ∧ (∀ q, q ∈ vmalloc_tape s1 → q ∈ vmalloc_tape s).
Proof.
  induction 1 as [| sl slots Hnotin Hnd IH]; intros s err s1 Hrun Hempty.
  - simpl in Hrun. injection Hrun as <- <-.
    split; [| split; [| done]].
    + intros p. unfold held. split; [by left|].
      intros [Hp | (_ & sl & Hin & _)]; [done | by apply elem_of_nil in Hin].
    + intros sl Hin. by apply elem_of_nil in Hin.
  - simpl in Hrun.
    destruct (_init_sdei_stack sl.1 sl.2 s) as [e sa] eqn:Hone.
    apply init_one_spec in Hone as (Hframe & Htape & Hcase).
    assert (Hrest0 : ∀ sl', sl' ∈ slots → slot_value sl' sa = 0).
    { intros sl' Hin. rewrite Hframe; [apply Hempty; by right|].
      intros ->. done. }
    destruct Hcase as [(-> & Hsame & Hlive) | (-> & Hnz & Hfrom & Hlive)].
    + (* the request failed *)
      destruct (negb (- ENOMEM =? 0)) eqn:Herr.
      * injection Hrun as <- <-. split; [| split; [| split]].
        -- intros p. rewrite Hlive. split; [by left|].
           intros [Hp | (Hpnz & sl' & Hin & Hval)]; [done|]. exfalso.
           apply elem_of_cons in Hin as [-> | Hin].
           ++ rewrite Hsame, Hempty in Hval; [done | by left].
           ++ rewrite Hrest0 in Hval; done.
        -- intros sl' Hin. left.
           apply elem_of_cons in Hin as [-> | Hin].
           ++ rewrite Hsame. apply Hempty. by left.
           ++ by apply Hrest0.
        -- intros sl' Hout. apply Hframe. intros ->. apply Hout. by left.
        -- done.
      * destruct (IH _ _ _ Hrun Hrest0) as (I1 & I2 & I3 & I4).
        assert (Hsl : slot_value sl s1 = 0).
        { rewrite I3, Hsame by done. apply Hempty. by left. }
        split; [| split; [| split]].
        -- intros p. rewrite I1, Hlive. unfold held.
           split; intros [Hp | (Hpnz & sl' & Hin & Hval)]; try by left.
           ++ right. split; [done|]. exists sl'. split; [by right | done].
           ++ apply elem_of_cons in Hin as [-> | Hin]; [congruence|].
              right. split; [done|]. by exists sl'.
        -- intros sl' Hin. apply elem_of_cons in Hin as [-> | Hin]; [by left|].
           destruct (I2 _ Hin) as [? | ?]; [by left | right; by apply Htape].
        -- intros sl' Hout. rewrite I3.
           ++ apply Hframe. intros ->. apply Hout. by left.
           ++ intros Hin. apply Hout. by right.
        -- intros q Hq. by apply Htape, I4.
    + (* the request succeeded *)
      simpl in Hrun.
      destruct (IH _ _ _ Hrun Hrest0) as (I1 & I2 & I3 & I4).
      assert (Hsl : slot_value sl s1 = slot_value sl sa) by (by apply I3).
      split; [| split; [| split]].
      * intros p. rewrite I1, Hlive. unfold held.
        split.
        -- intros [Hp | (Hpnz & sl' & Hin & Hval)].
           ++ apply elem_of_union in Hp as [Hp | Hp]; [| by left].
              apply elem_of_singleton in Hp. right.
              split; [congruence|]. exists sl. split; [by left | congruence].
           ++ right. split; [done|]. exists sl'. split; [by right | done].
        -- intros [Hp | (Hpnz & sl' & Hin & Hval)]; [left; set_solver|].
           apply elem_of_cons in Hin as [-> | Hin].
           ++ left. rewrite Hsl in Hval. set_solver.
           ++ right. split; [done|]. by exists sl'.
      * intros sl' Hin. apply elem_of_cons in Hin as [-> | Hin].
        -- right. by rewrite Hsl.
        -- destruct (I2 _ Hin) as [? | ?]; [by left | right; by apply Htape].
      * intros sl' Hout. rewrite I3.
        -- apply Hframe. intros ->. apply Hout. by left.
        -- intros Hin. apply Hout. by right.
      * intros q Hq. by apply Htape, I4.
Qed.

End InitFacts.

Section ArenaTheorems.
Import Arena Slots.
Context {plat : Platform}.

Lemma free_sdei_stacks_nulls s cpu v :
  cpu ∈ for_each_possible_cpu → per_cpu v cpu (free_sdei_stacks s) = 0.
Proof. apply free_on_nulls. Qed.

Lemma live_free_sdei_stacks s p :
  p ∈ vmalloc_live (free_sdei_stacks s)
  ↔ p ∈ vmalloc_live s ∧ ¬ held (cpu_slots for_each_possible_cpu) s p.
Proof. unfold free_sdei_stacks. rewrite free_on_slots. apply live_free_slots. Qed.

(** C8: [free_sdei_stacks] is idempotent on every arena; freeing a slot
    that holds NULL changes nothing; after it every pointer of every
    possible cpu is NULL and no region the slots recorded is live. *)
Theorem free_sdei_stacks_idempotent (s : arena) :
  free_sdei_stacks (free_sdei_stacks s) = free_sdei_stacks s
  ∧ (∀ v cpu s0, per_cpu v cpu s0 = 0 → _free_sdei_stack v cpu s0 = s0)
  ∧ (∀ v cpu, cpu ∈ for_each_possible_cpu →
       per_cpu v cpu (free_sdei_stacks s) = 0)
  ∧ (∀ v cpu, cpu ∈ for_each_possible_cpu → per_cpu v cpu s ≠ 0 →
       per_cpu v cpu s ∉ vmalloc_live (free_sdei_stacks s)).
Proof.
  split; [| split; [| split]].
  - apply free_on_unarmed. intros c v Hin. by apply free_sdei_stacks_nulls.
  - intros v cpu s0. apply free_null.
  - intros v cpu Hin. by apply free_sdei_stacks_nulls.
  - intros v cpu Hin Hnz Hlive.
    apply live_free_sdei_stacks in Hlive as [_ Hnot]. apply Hnot.
    split; [done|]. exists (v, cpu). split; [| done].
    by apply elem_of_cpu_slots.
Qed.

(** A request that fails makes the loop fail, at whichever slot it
    falls. *)
Lemma init_slots_fails slots : ∀ s j,
  ENOMEM ≠ 0 → (j < length slots)%nat →
  request_outcome s j = 0 →
  (∀ i, (i < j)%nat → request_outcome s i ≠ 0) →
  (init_slots slots s).1 = - ENOMEM.
Proof.
  unfold request_outcome.
  induction slots as [| sl slots IH]; intros s j Hnz Hj Hfail Hbefore;
    simpl in Hj; [lia|].
  assert (Herr : negb (- ENOMEM =? 0) = true)
    by (apply negb_true_iff, Z.eqb_neq; lia).
  simpl. unfold _init_sdei_stack, arch_alloc_vmap_stack.
  destruct (vmalloc_tape s) as [| p tape] eqn:Htape.
  - simpl. by rewrite Herr.
  - destruct (Z.eqb_spec p 0) as [-> | Hp].
    + simpl. by rewrite Herr.
    + apply Z.eqb_neq in Hp as Hpb. rewrite Hpb. simpl.
      destruct j as [| j]; [simpl in Hfail; congruence|].
      apply (IH _ j); [done | lia | |].
      * by destruct sl as [[] c].
      * intros i Hi. specialize (Hbefore (S i) ltac:(lia)).
        by destruct sl as [[] c].
Qed.

Lemma length_cpu_slots cpus : length (cpu_slots cpus) = (2 * length cpus)%nat.
Proof. induction cpus as [| c cpus IH]; simpl; lia. Qed.

(** Arming fails as soon as one of the two requests of some possible cpu
    fails: request [j] is the one for the normal ([j] even) or critical
    ([j] odd) stack of the [j / 2]-th possible cpu. *)
Lemma init_sdei_stacks_fails s j :
  ENOMEM ≠ 0 → (j < 2 * length for_each_possible_cpu)%nat →
  request_outcome s j = 0 →
  (∀ i, (i < j)%nat → request_outcome s i ≠ 0) →
  (init_sdei_stacks s).1 = - ENOMEM.
Proof.
  intros Hnz Hj Hfail Hbefore.
  pose proof (init_slots_fails (cpu_slots for_each_possible_cpu) s j Hnz) as H.
  rewrite length_cpu_slots in H. specialize (H Hj Hfail Hbefore).
  unfold init_sdei_stacks. rewrite init_on_slots.
  destruct (init_slots (cpu_slots for_each_possible_cpu) s) as [err s1].
  simpl in H. subst err.
  assert (negb (- ENOMEM =? 0) = true) as ->
    by (apply negb_true_iff, Z.eqb_neq; lia).
  done.
Qed.

(** C2: when [init_sdei_stacks] fails, every pointer of every possible
    cpu is NULL afterwards; and when the arena was not armed before the
    call, the live regions are those that were live before it: whatever
    the call had allocated, for whichever cpu, has been freed. *)
Theorem init_sdei_stacks_rollback (s s' : arena) (err : Z) :
  init_sdei_stacks s = (err, s') → err ≠ 0 →
  (∀ v cpu, cpu ∈ for_each_possible_cpu → per_cpu v cpu s' = 0)
  ∧ (unarmed s → tape_fresh s → vmalloc_live s' = vmalloc_live s).
Proof.
  intros Hrun Herr. unfold init_sdei_stacks in Hrun.
  destruct (init_sdei_stacks_on for_each_possible_cpu s) as [e s1] eqn:Hloop.
  destruct (Z.eqb_spec e 0) as [-> | He]; simpl in Hrun;
    injection Hrun as <- <-; [done|].
  split; [intros v cpu Hin; by apply free_sdei_stacks_nulls|].
  intros Hunarmed Hfresh.
  rewrite init_on_slots in Hloop.
  apply init_slots_spec in Hloop as (I1 & I2 & _ & _).
  - apply set_eq. intros p. rewrite live_free_sdei_stacks, I1. split.
    + intros [[Hp | Hheld] Hnot]; done.
    + intros Hp. split; [by left|].
      intros (Hnz & sl & Hin & Hval).
      destruct (I2 _ Hin) as [Hz | Htape]; [congruence|].
      rewrite Hval in Htape. by apply (Hfresh p).
  - apply NoDup_cpu_slots, NoDup_for_each_possible_cpu.
  - intros [v c] Hin. apply elem_of_cpu_slots in Hin. by apply Hunarmed.
Qed.

End ArenaTheorems.

Lemma init_sdei_stacks_rollback_witness :
  let plat := arm64 true false false in
  let s' := (Arena.init_sdei_stacks arena_failing_at_cpu1).2 in
  (∀ v cpu, cpu ∈ for_each_possible_cpu → Arena.per_cpu v cpu s' = 0)
  ∧ Arena.vmalloc_live s' = ∅.
Proof.
  intros plat s'.
  destruct (init_sdei_stacks_rollback (plat := plat) arena_failing_at_cpu1 s'
              (-12) ltac:(vm_compute; reflexivity) ltac:(lia))
    as [Hnull Hlive].
  split; [done|]. apply Hlive.
  - intros cpu v _. by destruct v.
  - intros p _ _. apply not_elem_of_empty.
Defined.

Lemma free_sdei_stacks_idempotent_witness :
  let plat := arm64 true false false in
  Arena.free_sdei_stacks (Arena.free_sdei_stacks arena_partly_armed)
  = Arena.free_sdei_stacks arena_partly_armed.
Proof.
  intros plat.
  exact (proj1 (free_sdei_stacks_idempotent (plat := plat) arena_partly_armed)).
Defined.

(** * The membership test *)

Section Membership.
Import Arena.
Context {plat : Platform}.

Lemma u64_small x : 0 <= x < 2 ^ 64 → u64 x = x.
Proof. intros Hx. unfold u64. by apply Z.mod_small. Qed.

Lemma range_test base sp :
  region_in_address_space base →
  (base <=? sp) && (sp <? u64 (base + SDEI_STACK_SIZE)) = true
  ↔ in_region base sp.
Proof.
  intros (Hb & Hs & Htop). unfold in_region.
  rewrite u64_small by lia.
  rewrite andb_true_iff, Z.leb_le, Z.ltb_lt. done.
Qed.

Lemma on_sdei_stack_vmap this_cpu s sp :
  CONFIG_VMAP_STACK = true →
  _on_sdei_stack this_cpu s sp
  = if range_check (per_cpu sdei_stack_critical_ptr this_cpu s) sp then true
    else range_check (per_cpu sdei_stack_normal_ptr this_cpu s) sp.
Proof. intros Hvmap. unfold _on_sdei_stack. by rewrite Hvmap. Qed.

(** C5: without vmap'd stacks the test is false for every [sp]; with
    them, and both recorded bases being regions of the address space, it
    is true exactly when [sp] lies in [base, base + size) of the critical
    or of the normal region of the calling cpu; a hit in the critical
    range answers before the normal pointer is looked at. *)
Theorem on_sdei_stack_spec (this_cpu : nat) (s : arena) (sp : Z) :
  (CONFIG_VMAP_STACK = false → _on_sdei_stack this_cpu s sp = false)
  ∧ (CONFIG_VMAP_STACK = true →
     region_in_address_space (per_cpu sdei_stack_critical_ptr this_cpu s) →
     (in_region (per_cpu sdei_stack_critical_ptr this_cpu s) sp →
      ∀ s2, per_cpu sdei_stack_critical_ptr this_cpu s2
            = per_cpu sdei_stack_critical_ptr this_cpu s →
            _on_sdei_stack this_cpu s2 sp = true)
     ∧ (region_in_address_space (per_cpu sdei_stack_normal_ptr this_cpu s) →
        (_on_sdei_stack this_cpu s sp = true
         ↔ in_region (per_cpu sdei_stack_critical_ptr this_cpu s) sp
           ∨ in_region (per_cpu sdei_stack_normal_ptr this_cpu s) sp))).
Proof.
  split.
  - unfold _on_sdei_stack. by intros ->.
  - intros Hvmap Hcrit. split.
    + intros Hin s2 Hsame. rewrite on_sdei_stack_vmap, Hsame by done.
      apply (range_test _ sp Hcrit) in Hin.
      unfold range_check. by rewrite Hin.
    + intros Hnorm. rewrite on_sdei_stack_vmap by done.
      destruct (range_check (per_cpu sdei_stack_critical_ptr this_cpu s) sp)
        eqn:Hc.
      * apply (range_test _ sp Hcrit) in Hc. naive_solver.
      * unfold range_check at 1. rewrite (range_test _ sp Hnorm).
        split; [by right|].
        intros [Hin | Hin]; [| done].
        apply (range_test _ sp Hcrit) in Hin.
        unfold range_check in Hc. congruence.
Qed.

(** C9: with vmap'd stacks and both pointers of the calling cpu still
    NULL, the test takes address zero as the base: it is true exactly for
    the [sp] below the stack size, although no stack exists. *)
Theorem on_sdei_stack_unarmed (this_cpu : nat) (s : arena) (sp : Z) :
  CONFIG_VMAP_STACK = true →
  0 <= SDEI_STACK_SIZE < 2 ^ 64 →
  per_cpu sdei_stack_critical_ptr this_cpu s = 0 →
  per_cpu sdei_stack_normal_ptr this_cpu s = 0 →
  (0 <= sp < SDEI_STACK_SIZE → _on_sdei_stack this_cpu s sp = true)
  ∧ (_on_sdei_stack this_cpu s sp = true ↔ 0 <= sp < SDEI_STACK_SIZE).
Proof.
  intros Hvmap Hsize Hc Hn.
  assert (Hiff : _on_sdei_stack this_cpu s sp = true ↔ 0 <= sp < SDEI_STACK_SIZE).
  { rewrite on_sdei_stack_vmap, Hc, Hn by done. unfold range_check.
    rewrite Z.add_0_l, u64_small by done.
    destruct (Z.leb_spec 0 sp), (Z.ltb_spec sp SDEI_STACK_SIZE); simpl;
      split; (done || lia). }
  split; [by apply Hiff | done].
Qed.

End Membership.

Lemma on_sdei_stack_spec_witness :
  let plat := arm64 true false false in
  Arena._on_sdei_stack 2 arena_partly_armed 0xffff00000a053ff0 = true
  ↔ in_region 0xffff00000a050000 0xffff00000a053ff0
    ∨ in_region 0xffff00000a040000 0xffff00000a053ff0.
Proof.
  intros plat.
  apply (on_sdei_stack_spec (plat := plat) 2 arena_partly_armed).
  - reflexivity.
  - unfold region_in_address_space. vm_compute. intuition discriminate.
  - unfold region_in_address_space. vm_compute. intuition discriminate.
Defined.

Lemma on_sdei_stack_unarmed_witness :
  let plat := arm64 true false false in
  Arena._on_sdei_stack 1 arena_partly_armed 0x3ff8 = true.
Proof.
  intros plat.
  apply (on_sdei_stack_unarmed (plat := plat) 1 arena_partly_armed 0x3ff8);
    try reflexivity; simpl; lia.
Defined.

(** * The entry-point resolver *)

Section ResolverTheorems.
Import Arena Resolver.
Context {plat : Platform}.


Lemma sdei_arch_get_entry_point_cases conduit k :
  if resolution_fails k
  then (sdei_arch_get_entry_point conduit k).1 = 0
       ∧ sdei_exit_mode (sdei_arch_get_entry_point conduit k).2
         = sdei_exit_mode k
  else (sdei_arch_get_entry_point conduit k).1 = __sdei_asm_handler
       ∧ sdei_exit_mode (sdei_arch_get_entry_point conduit k).2
         = (if conduit =? CONDUIT_HVC then SDEI_EXIT_HVC else SDEI_EXIT_SMC).
Proof.
  unfold resolution_fails, sdei_arch_get_entry_point.
  destruct (is_hyp_mode_available && negb is_kernel_in_hyp_mode); [done|].
  destruct CONFIG_VMAP_STACK; simpl; [| done].
  destruct (init_sdei_stacks (mem k)) as [err m]; simpl.
  by destruct (err =? 0).
Qed.

(** C10: whenever resolution fails, by the privilege-level check or by
    arming, [sdei_exit_mode] keeps the value it had; it is assigned
    only on the path that returns the handler's address.  The handler's
    address not being null, a return of 0 is such a failure. *)
Theorem sdei_exit_mode_unchanged_on_failure (conduit : Z) (k : kernel) :
  (resolution_fails k = true →
   (sdei_arch_get_entry_point conduit k).1 = 0
   ∧ sdei_exit_mode (sdei_arch_get_entry_point conduit k).2 = sdei_exit_mode k)
  ∧ (resolution_fails k = false →
     (sdei_arch_get_entry_point conduit k).1 = __sdei_asm_handler
     ∧ sdei_exit_mode (sdei_arch_get_entry_point conduit k).2
       = (if conduit =? CONDUIT_HVC then SDEI_EXIT_HVC else SDEI_EXIT_SMC))
  ∧ (__sdei_asm_handler ≠ 0 →
     (sdei_arch_get_entry_point conduit k).1 = 0 →
     sdei_exit_mode (sdei_arch_get_entry_point conduit k).2 = sdei_exit_mode k).
Proof.
  pose proof (sdei_arch_get_entry_point_cases conduit k) as Hcases.
  destruct (resolution_fails k); (split; [| split]); try done.
  - intros _ _. apply Hcases.
  - intros Hnz Hret. destruct Hcases as [Hh _]. congruence.
Qed.

End ResolverTheorems.


Lemma sdei_exit_mode_unchanged_on_failure_witness :
  let plat := arm64 true false false in
  let k := kernel_at_boot (Arena.vmalloc_tape arena_failing_at_cpu1) in
  (Resolver.sdei_arch_get_entry_point 2 k).1 = 0
  ∧ Resolver.sdei_exit_mode (Resolver.sdei_arch_get_entry_point 2 k).2 = 7.
Proof.
  intros plat k.
  apply (sdei_exit_mode_unchanged_on_failure (plat := plat) 2 k).
  vm_compute. reflexivity.
Defined.

(** * The dispatcher *)

Section DispatchFacts.
Import Dispatch.
Context {plat : Platform} {sdei_registered_event : Type}.
Variable sdei_api_event_context : Z → Z.
Variable sdei_event_handler :
  pt_regs → sdei_registered_event → cpu_state → Z * pt_regs * sysregs.

#[local] Abbreviation retrieve := (retrieve_registers sdei_api_event_context).
#[local] Abbreviation dispatch := (_sdei_handler sdei_api_event_context sdei_event_handler).
#[local] Abbreviation wrapper := (__sdei_handler sdei_api_event_context sdei_event_handler).

Lemma retrieve_frame n : ∀ i0 r,
  pstate (retrieve n i0 r) = pstate r
  ∧ sp (retrieve n i0 r) = sp r
  ∧ pc (retrieve n i0 r) = pc r
  ∧ length (regs (retrieve n i0 r)) = length (regs r).
Proof.
  induction n as [| n IH]; intros i0 r; simpl; [done|].
  destruct (IH (S i0) (set_reg i0 (sdei_api_event_context (Z.of_nat i0)) r))
    as (-> & -> & -> & ->).
  simpl. by rewrite length_insert.
Qed.

Lemma retrieve_lookup n : ∀ i0 r j,
  (i0 + n ≤ length (regs r))%nat →
  regs (retrieve n i0 r) !! j
  = if decide (i0 ≤ j < i0 + n)%nat
    then Some (sdei_api_event_context (Z.of_nat j))
    else regs r !! j.
Proof.
  induction n as [| n IH]; intros i0 r j Hlen; simpl.
  - case_decide; [lia | done].
  - rewrite IH by (simpl; rewrite length_insert; lia). simpl.
    destruct (decide (j = i0)) as [-> | Hne].
    + rewrite list_lookup_insert_eq by lia.
      repeat case_decide; (done || lia).
    + rewrite list_lookup_insert_ne by done.
      repeat case_decide; (done || lia).
Qed.

Lemma set_pstate_pan_frame s :
  in_nmi (set_pstate_pan s) = in_nmi s
  ∧ trace (set_pstate_pan s) = trace s
  ∧ elr_el1 (sys (set_pstate_pan s)) = elr_el1 (sys s)
  ∧ CurrentEL (sys (set_pstate_pan s)) = CurrentEL (sys s)
  ∧ vbar_el1 (sys (set_pstate_pan s)) = vbar_el1 (sys s).
Proof. unfold set_pstate_pan. by destruct (CONFIG_ARM64_PAN && cpu_has_pan). Qed.

Lemma wf_vbar_offset vbar off :
  wf_vbar vbar → 0 <= off < 2048 → u64 (vbar + off) = vbar + off.
Proof.
  intros [Hrange Halign] Hoff. apply u64_small.
  pose proof (Z.div_mod vbar 2048). lia.
Qed.

(** What a dispatch does, by the outcome of the callback. *)
Lemma sdei_handler_on_failure r arg s err r2 sys2 :
  sdei_event_handler (retrieve clobbered_registers 0%nat r) arg (set_pstate_pan s)
  = (err, r2, sys2) →
  err ≠ 0 →
  dispatch r arg s = (SDEI_EV_FAILED, r2, state_after_callback s sys2 false).
Proof.
  intros Hcb Herr. unfold _sdei_handler. rewrite Hcb.
  apply Z.eqb_neq in Herr. rewrite Herr. simpl.
  destruct (set_pstate_pan_frame s) as (-> & -> & _). done.
Qed.

Lemma sdei_handler_on_success r arg s r2 sys2 :
  sdei_event_handler (retrieve clobbered_registers 0%nat r) arg (set_pstate_pan s)
  = (0, r2, sys2) →
  dispatch r arg s
  = (let mode := u32 (Z.land (pstate r2) (Z.lor PSR_MODE32_BIT PSR_MODE_MASK)) in
     let kernel_mode := u32 (Z.lor (CurrentEL (sys s)) 1) in
     if (mode =? kernel_mode) && negb (interrupts_enabled r2)
     then SDEI_EV_HANDLED
     else if mode =? kernel_mode then u64 (vbar_el1 (sys s) + 0x280)
     else if negb (Z.land mode PSR_MODE32_BIT =? 0)
     then u64 (vbar_el1 (sys s) + 0x680)
     else u64 (vbar_el1 (sys s) + 0x480),
     r2,
     state_after_callback s sys2 (negb (elr_el1 (sys s) =? elr_el1 sys2))).
Proof.
  intros Hcb. unfold _sdei_handler. rewrite Hcb. simpl.
  destruct (set_pstate_pan_frame s) as (-> & -> & _).
  assert (Hstate :
    (if negb (elr_el1 (sys s) =? elr_el1 sys2)
     then emit (Ev_pr_warn "sdei: unsafe: exception during handler")
            (mk_cpu sys2 (in_nmi s) (trace s ++ [Ev_sdei_event_handler]))
     else mk_cpu sys2 (in_nmi s) (trace s ++ [Ev_sdei_event_handler]))
    = state_after_callback s sys2 (negb (elr_el1 (sys s) =? elr_el1 sys2))).
  { unfold state_after_callback, emit.
    destruct (negb (elr_el1 (sys s) =? elr_el1 sys2)); simpl; [| done].
    by rewrite <- app_assoc. }
  rewrite Hstate.
  repeat match goal with |- context [if ?b then _ else _] =>
    lazymatch b with
    | negb (elr_el1 _ =? _) => fail
    | _ => destruct b
    end
  end; reflexivity.
Qed.

(** The value returned after a callback that succeeded, as the
    disposition of the pstate the callback left. *)
Lemma sdei_handler_ret_on_success r arg s r2 sys2 :
  wf_vbar (vbar_el1 (sys s)) →
  sdei_event_handler (retrieve clobbered_registers 0%nat r) arg (set_pstate_pan s)
  = (0, r2, sys2) →
  (dispatch r arg s).1.1
  = ret_of_disposition
      (disposition_of (dispatcher_mode (sys s)) (vbar_el1 (sys s)) (pstate r2)).
Proof.
  intros Hvbar Hcb. rewrite (sdei_handler_on_success _ _ _ _ _ Hcb). simpl.
  unfold disposition_of, saved_mode, dispatcher_mode, mode_is_32bit,
    interrupts_masked, interrupts_enabled, saved_mode.
  rewrite !(wf_vbar_offset _ _ Hvbar) by lia.
  destruct (_ =? u32 _); simpl.
  - by destruct (Z.land (pstate r2) PSR_I_BIT =? 0).
  - by destruct (Z.land _ PSR_MODE32_BIT =? 0).
Qed.

(** With sentinels below the first vector offset, as the kernel's 0 and
    1 are, firmware reads the value returned as that very disposition:
    a redirect is never taken for a sentinel. *)
Lemma sdei_handler_ret_decoded r arg s r2 sys2 :
  wf_vbar (vbar_el1 (sys s)) →
  0 <= SDEI_EV_HANDLED < 0x280 → 0 <= SDEI_EV_FAILED < 0x280 →
  sdei_event_handler (retrieve clobbered_registers 0%nat r) arg (set_pstate_pan s)
  = (0, r2, sys2) →
  disposition_of_ret (dispatch r arg s).1.1
  = disposition_of (dispatcher_mode (sys s)) (vbar_el1 (sys s)) (pstate r2).
Proof.
  intros Hvbar Hh Hf Hcb. rewrite (sdei_handler_ret_on_success _ _ _ _ _ Hvbar Hcb).
  destruct Hvbar as [Hrange _].
  unfold disposition_of, disposition_of_ret.
  destruct (saved_mode _ =? _);
    [destruct (interrupts_masked _) | destruct (mode_is_32bit _)]; simpl.
  - by rewrite Z.eqb_refl.
  - destruct (Z.eqb_spec (vbar_el1 (sys s) + 640) SDEI_EV_HANDLED); [lia|].
    destruct (Z.eqb_spec (vbar_el1 (sys s) + 640) SDEI_EV_FAILED); [lia | done].
  - destruct (Z.eqb_spec (vbar_el1 (sys s) + 1664) SDEI_EV_HANDLED); [lia|].
    destruct (Z.eqb_spec (vbar_el1 (sys s) + 1664) SDEI_EV_FAILED); [lia | done].
  - destruct (Z.eqb_spec (vbar_el1 (sys s) + 1152) SDEI_EV_HANDLED); [lia|].
    destruct (Z.eqb_spec (vbar_el1 (sys s) + 1152) SDEI_EV_FAILED); [lia | done].
Qed.

(** C1: when the callback succeeds, the value returned is the
    disposition of step 6: Handled for the dispatcher's own kernel mode
    with interrupts masked, the vector base plus 0x280 for that mode with
    interrupts enabled, plus 0x680 for any other mode with the 32-bit bit
    set, plus 0x480 otherwise; the dispatcher's own mode not having the
    32-bit bit, the 32-bit case needs no look at the kernel mode.  The
    mode bits and the interrupt flag are those of the snapshot's pstate
    when the callback has returned. *)
Theorem sdei_handler_disposition r arg s r2 sys2 :
  wf_vbar (vbar_el1 (sys s)) →
  sdei_event_handler (retrieve clobbered_registers 0%nat r) arg (set_pstate_pan s)
  = (0, r2, sys2) →
  let mode := saved_mode (pstate r2) in
  let kernel_mode := dispatcher_mode (sys s) in
  let vbar := vbar_el1 (sys s) in
  let ret := (dispatch r arg s).1.1 in
  ret = ret_of_disposition (disposition_of kernel_mode vbar (pstate r2))
  ∧ (mode = kernel_mode → interrupts_masked (pstate r2) = true →
     ret = ret_of_disposition Handled)
  ∧ (mode = kernel_mode → interrupts_masked (pstate r2) = false →
     ret = ret_of_disposition (Redirect (vbar + 0x280)))
  ∧ (mode ≠ kernel_mode → mode_is_32bit (pstate r2) = true →
     ret = ret_of_disposition (Redirect (vbar + 0x680)))
  ∧ (mode ≠ kernel_mode → mode_is_32bit (pstate r2) = false →
     ret = ret_of_disposition (Redirect (vbar + 0x480)))
  ∧ (Z.land kernel_mode PSR_MODE32_BIT = 0 →
     mode_is_32bit (pstate r2) = true →
     ret = ret_of_disposition (Redirect (vbar + 0x680))).
Proof.
  intros Hvbar Hcb mode kernel_mode vbar ret.
  assert (Hret : ret
    = ret_of_disposition (disposition_of kernel_mode vbar (pstate r2)))
    by exact (sdei_handler_ret_on_success _ _ _ _ _ Hvbar Hcb).
  split; [done|]. rewrite Hret. unfold disposition_of. fold mode.
  repeat split.
  - intros -> ->. by rewrite Z.eqb_refl.
  - intros -> ->. by rewrite Z.eqb_refl.
  - intros Hne ->. apply Z.eqb_neq in Hne. by rewrite Hne.
  - intros Hne ->. apply Z.eqb_neq in Hne. by rewrite Hne.
  - intros Hel H32. rewrite H32.
    destruct (Z.eqb_spec mode kernel_mode) as [Heq | Hne]; [| done].
    unfold mode_is_32bit in H32. fold mode in H32.
    rewrite Heq, Hel in H32. done.
Qed.

(** C4, as the code has it: when the callback fails, the dispatcher
    returns SDEI_EV_FAILED and ends in the state the callback left, with
    no warning logged; the snapshot handed to the callback holds the
    firmware's answers in registers 0 to 3 and is otherwise the one
    received; the dispatcher writes nothing after the callback, so the
    snapshot returned is the callback's, and registers 0 to 3 still hold
    the firmware's answers whenever the callback left them alone. *)
Theorem sdei_handler_failed r arg s err r2 sys2 :
  wf_pt_regs r →
  sdei_event_handler (retrieve clobbered_registers 0%nat r) arg (set_pstate_pan s)
  = (err, r2, sys2) →
  err ≠ 0 →
  dispatch r arg s = (SDEI_EV_FAILED, r2, state_after_callback s sys2 false)
  ∧ (∀ i, (i < 4)%nat →
       regs (retrieve clobbered_registers 0%nat r) !! i
       = Some (sdei_api_event_context (Z.of_nat i)))
  ∧ (∀ i, (4 ≤ i)%nat →
       regs (retrieve clobbered_registers 0%nat r) !! i = regs r !! i)
  ∧ pstate (retrieve clobbered_registers 0%nat r) = pstate r
  ∧ ((∀ i, (i < 4)%nat →
        regs r2 !! i = regs (retrieve clobbered_registers 0%nat r) !! i) →
     ∀ i, (i < 4)%nat →
       regs (dispatch r arg s).1.2 !! i
       = Some (sdei_api_event_context (Z.of_nat i))).
Proof.
  intros Hwf Hcb Herr. unfold wf_pt_regs in Hwf.
  assert (Hlow : ∀ i, (i < 4)%nat →
    regs (retrieve clobbered_registers 0%nat r) !! i
    = Some (sdei_api_event_context (Z.of_nat i))).
  { intros i Hi. rewrite retrieve_lookup by (unfold clobbered_registers; lia).
    unfold clobbered_registers. case_decide; [done | lia]. }
  split; [exact (sdei_handler_on_failure _ _ _ _ _ _ Hcb Herr)|].
  split; [done|]. split; [| split].
  - intros i Hi. rewrite retrieve_lookup by (unfold clobbered_registers; lia).
    unfold clobbered_registers. case_decide; [lia | done].
  - apply retrieve_frame.
  - intros Hkept i Hi.
    rewrite (sdei_handler_on_failure _ _ _ _ _ _ Hcb Herr). simpl.
    rewrite Hkept by done. by apply Hlow.
Qed.

(** C6, as the code has it: ELR_EL1, the dispatcher's own mode and the
    vector base are read before the registers are repaired and before
    the callback runs; the saved mode bits and the interrupt flag are
    read from the snapshot's pstate after the callback has returned.  The
    disposition is that of the pstate the callback left; the repair does
    not touch pstate, so it is the disposition of the pstate received
    whenever the callback leaves pstate alone. *)
Theorem sdei_handler_reads_pstate_after_callback r arg s r2 sys2 :
  wf_vbar (vbar_el1 (sys s)) →
  sdei_event_handler (retrieve clobbered_registers 0%nat r) arg (set_pstate_pan s)
  = (0, r2, sys2) →
  (dispatch r arg s).1.1
  = ret_of_disposition
      (disposition_of (dispatcher_mode (sys s)) (vbar_el1 (sys s)) (pstate r2))
  ∧ trace (dispatch r arg s).2
    = trace s ++ Ev_sdei_event_handler
        :: (if elr_el1 (sys s) =? elr_el1 sys2 then []
            else [Ev_pr_warn "sdei: unsafe: exception during handler"])
  ∧ pstate (retrieve clobbered_registers 0%nat r) = pstate r
  ∧ (pstate r2 = pstate r →
     (dispatch r arg s).1.1
     = ret_of_disposition
         (disposition_of (dispatcher_mode (sys s)) (vbar_el1 (sys s))
            (pstate r))).
Proof.
  intros Hvbar Hcb.
  assert (Hret : (dispatch r arg s).1.1
    = ret_of_disposition
        (disposition_of (dispatcher_mode (sys s)) (vbar_el1 (sys s))
           (pstate r2))).
  { exact (sdei_handler_ret_on_success _ _ _ _ _ Hvbar Hcb). }
  split; [done|]. split; [| split].
  - rewrite (sdei_handler_on_success _ _ _ _ _ Hcb). simpl.
    by destruct (elr_el1 (sys s) =? elr_el1 sys2).
  - apply retrieve_frame.
  - by intros <-.
Qed.

(** The dispatcher leaves the NMI flag alone and makes no NMI call. *)
Lemma sdei_handler_nmi_frame r arg s :
  in_nmi (dispatch r arg s).2 = in_nmi s
  ∧ ∃ evs, trace (dispatch r arg s).2 = trace s ++ evs
           ∧ (Ev_nmi_enter ∉ evs) ∧ (Ev_nmi_exit ∉ evs).
Proof.
  destruct (sdei_event_handler (retrieve clobbered_registers 0%nat r) arg
              (set_pstate_pan s)) as [[err r2] sys2] eqn:Hcb.
  destruct (decide (err = 0)) as [-> | Herr].
  - rewrite (sdei_handler_on_success _ _ _ _ _ Hcb). simpl.
    split; [done|]. eexists. split; [done|].
    destruct (negb _); rewrite !elem_of_cons, !elem_of_nil; naive_solver.
  - rewrite (sdei_handler_on_failure _ _ _ _ _ _ Hcb Herr). simpl.
    split; [done|]. eexists. split; [done|].
    rewrite !elem_of_cons, !elem_of_nil; naive_solver.
Qed.

(** C3: entered with the NMI flag set, the wrapper is the dispatcher
    and nothing more: no [nmi_enter], no [nmi_exit], the flag stays set.
    Entered with the flag clear, it calls [nmi_enter], runs the
    dispatcher with the flag set, and calls [nmi_exit] whatever the
    dispatcher returned, SDEI_EV_FAILED included; it returns the
    dispatcher's value and snapshot and leaves the flag clear. *)
Theorem sdei_handler_nmi_accounting r arg s :
  (in_nmi s = true →
   wrapper r arg s = dispatch r arg s
   ∧ in_nmi (wrapper r arg s).2 = true
   ∧ ∃ evs, trace (wrapper r arg s).2 = trace s ++ evs
            ∧ (Ev_nmi_enter ∉ evs) ∧ (Ev_nmi_exit ∉ evs))
  ∧ (in_nmi s = false →
     wrapper r arg s
     = ((dispatch r arg (nmi_enter s)).1, nmi_exit (dispatch r arg (nmi_enter s)).2)
     ∧ in_nmi (nmi_enter s) = true
     ∧ in_nmi (dispatch r arg (nmi_enter s)).2 = true
     ∧ in_nmi (wrapper r arg s).2 = false
     ∧ ∃ evs, trace (wrapper r arg s).2
              = trace s ++ [Ev_nmi_enter] ++ evs ++ [Ev_nmi_exit]
              ∧ (Ev_nmi_enter ∉ evs) ∧ (Ev_nmi_exit ∉ evs)).
Proof.
  split; intros Hflag.
  - assert (Heq : wrapper r arg s = dispatch r arg s).
    { unfold __sdei_handler. rewrite Hflag. simpl.
      by destruct (dispatch r arg s) as [[ret r'] s']. }
    rewrite Heq. destruct (sdei_handler_nmi_frame r arg s) as [Hnmi Htrace].
    split; [done|]. split; [congruence | done].
  - assert (Heq : wrapper r arg s
      = ((dispatch r arg (nmi_enter s)).1,
         nmi_exit (dispatch r arg (nmi_enter s)).2)).
    { unfold __sdei_handler. rewrite Hflag. simpl.
      by destruct (dispatch r arg (nmi_enter s)) as [[ret r'] s']. }
    rewrite Heq.
    destruct (sdei_handler_nmi_frame r arg (nmi_enter s))
      as [Hnmi (evs & Htrace & Hevs)].
    split; [done|]. split; [done|]. split; [done|]. split; [done|].
    exists evs. split; [| done]. simpl. rewrite Htrace. simpl.
    by rewrite <- !app_assoc.
Qed.

End DispatchFacts.

Lemma sdei_handler_disposition_witness :
  let plat := arm64 true false false in
  (Dispatch._sdei_handler fw_context cb_ok (zero_regs 0x5) tt (cpu_el1 false)).1.1
  = 0xffff000008081280.
Proof.
  intros plat.
  refine (eq_trans
    (proj1 (sdei_handler_disposition (plat := plat) fw_context cb_ok
       (zero_regs 0x5) tt (cpu_el1 false) _ _ _ eq_refl)) _).
  - unfold wf_vbar. vm_compute. intuition discriminate.
  - vm_compute. reflexivity.
Defined.

Lemma sdei_handler_failed_witness :
  let plat := arm64 true false false in
  (Dispatch._sdei_handler fw_context cb_fail (zero_regs 0x5) tt (cpu_el1 false)).1.1
  = 1
  ∧ ∀ i, (i < 4)%nat →
      Dispatch.regs
        (Dispatch._sdei_handler fw_context cb_fail (zero_regs 0x5) tt
           (cpu_el1 false)).1.2 !! i
      = Some (fw_context (Z.of_nat i)).
Proof.
  intros plat.
  destruct (sdei_handler_failed (plat := plat) fw_context cb_fail
              (zero_regs 0x5) tt (cpu_el1 false) (-22) _ _
              eq_refl eq_refl ltac:(lia))
    as (Hret & _ & _ & _ & Hkept).
  split.
  - rewrite Hret. reflexivity.
  - apply Hkept. reflexivity.
Defined.

Lemma sdei_handler_reads_pstate_after_callback_witness :
  let plat := arm64 true false false in
  (Dispatch._sdei_handler fw_context cb_mask_irq (zero_regs 0x5) tt
     (cpu_el1 false)).1.1
  = SDEI_EV_HANDLED.
Proof.
  intros plat.
  refine (eq_trans
    (proj1 (sdei_handler_reads_pstate_after_callback (plat := plat)
       fw_context cb_mask_irq (zero_regs 0x5) tt (cpu_el1 false) _ _ _ eq_refl))
    _).
  - unfold wf_vbar. vm_compute. intuition discriminate.
  - vm_compute. reflexivity.
Defined.

Lemma sdei_handler_nmi_accounting_witness :
  let plat := arm64 true false false in
  Dispatch.__sdei_handler fw_context cb_fail (zero_regs 0x5) tt (cpu_el1 true)
  = Dispatch._sdei_handler fw_context cb_fail (zero_regs 0x5) tt (cpu_el1 true)
  ∧ Dispatch.in_nmi
      (Dispatch.__sdei_handler fw_context cb_fail (zero_regs 0x5) tt
         (cpu_el1 false)).2 = false.
Proof.
  intros plat. split.
  - apply (sdei_handler_nmi_accounting (plat := plat) fw_context cb_fail
             (zero_regs 0x5) tt (cpu_el1 true)). reflexivity.
  - apply (sdei_handler_nmi_accounting (plat := plat) fw_context cb_fail
             (zero_regs 0x5) tt (cpu_el1 false)). reflexivity.
Defined.

(** C4 as worded fails: the callback is handed the repaired snapshot,
    writes 0x63 to register 0 and fails; the dispatcher returns
    SDEI_EV_FAILED, and register 0 of the snapshot then holds 0x63, not
    the firmware's answer 0xa0. *)
Lemma sdei_handler_failed_x0_not_firmware :
  let plat := arm64 true false false in
  let r := zero_regs 0x5 in
  let s := cpu_el1 false in
  (cb_fail_writing_x0 (Dispatch.retrieve_registers fw_context 4 0 r) tt
     (Dispatch.set_pstate_pan s)).1.1 ≠ 0
  ∧ (Dispatch._sdei_handler fw_context cb_fail_writing_x0 r tt s).1.1
    = SDEI_EV_FAILED
  ∧ Dispatch.regs
      (Dispatch.retrieve_registers fw_context 4 0 r) !! 0%nat
    = Some (fw_context 0)
  ∧ Dispatch.regs
      (Dispatch._sdei_handler fw_context cb_fail_writing_x0 r tt s).1.2
      !! 0%nat
    = Some 0x63
  ∧ Dispatch.regs
      (Dispatch._sdei_handler fw_context cb_fail_writing_x0 r tt s).1.2
      !! 0%nat
    ≠ Some (fw_context 0).
Proof.
  intros plat r s. vm_compute. repeat split; discriminate.
Qed.

(** C6 as worded fails: the snapshot arrives from EL1h with interrupts
    enabled, for which the disposition is the vector base plus 0x280; the
    callback succeeds after masking interrupts in the saved pstate, and
    the dispatcher, reading pstate afterwards, returns SDEI_EV_HANDLED. *)
Lemma sdei_handler_disposition_not_from_entry_pstate :
  let plat := arm64 true false false in
  let r := zero_regs 0x5 in
  let s := cpu_el1 false in
  (cb_mask_irq (Dispatch.retrieve_registers fw_context 4 0 r) tt
     (Dispatch.set_pstate_pan s)).1.1 = 0
  ∧ (Dispatch._sdei_handler fw_context cb_mask_irq r tt s).1.1 = SDEI_EV_HANDLED
  ∧ ret_of_disposition
      (disposition_of (dispatcher_mode (Dispatch.sys s))
         (Dispatch.vbar_el1 (Dispatch.sys s)) (Dispatch.pstate r))
    = 0xffff000008081280
  ∧ (Dispatch._sdei_handler fw_context cb_mask_irq r tt s).1.1
    ≠ ret_of_disposition
        (disposition_of (dispatcher_mode (Dispatch.sys s))
           (Dispatch.vbar_el1 (Dispatch.sys s)) (Dispatch.pstate r)).
Proof.
  intros plat r s. vm_compute. repeat split; discriminate.
Qed.

(** * The code run on concrete inputs *)

Section Runs.
Import Arena Resolver Dispatch.

#[local] Abbreviation plat := arm64_vmap.
#[local] Abbreviation plat_novmap := arm64_novmap.

Example run_init_ok :
  let r := init_sdei_stacks (plat := plat) (boot_arena tape_for_four_cpus) in
  r.1 = 0
  ∧ per_cpu sdei_stack_normal_ptr 3 r.2 = 0xffff00000a060000
  ∧ per_cpu sdei_stack_critical_ptr 3 r.2 = 0xffff00000a070000
  ∧ size (vmalloc_live r.2) = 8%nat.
Proof. vm_compute. done. Qed.

Example run_init_failing :
  init_sdei_stacks (plat := plat) arena_failing_at_cpu1
  = (-12, mk_arena {[ 0%nat := 0; 1%nat := 0 ]} {[ 0%nat := 0 ]} ∅
            [0xffff00000a030000]).
Proof. vm_compute. reflexivity. Qed.

Example run_free_partly_armed :
  free_sdei_stacks (plat := plat) arena_partly_armed
  = mk_arena {[ 0%nat := 0; 2%nat := 0 ]} {[ 0%nat := 0; 2%nat := 0 ]} ∅ [].
Proof. vm_compute. reflexivity. Qed.

Example run_on_stack :
  _on_sdei_stack (plat := plat) 2 arena_partly_armed 0xffff00000a050000 = true
  ∧ _on_sdei_stack (plat := plat) 2 arena_partly_armed 0xffff00000a043fff = true
  ∧ _on_sdei_stack (plat := plat) 2 arena_partly_armed 0xffff00000a044000 = false
  ∧ _on_sdei_stack (plat := plat) 0 arena_partly_armed 0xffff00000a050000 = false
  ∧ _on_sdei_stack (plat := plat_novmap) 2 arena_partly_armed 0xffff00000a050000
    = false
  ∧ _on_sdei_stack (plat := plat) 1 arena_partly_armed 0 = true.
Proof. vm_compute. done. Qed.

Example run_entry_point_hvc :
  let r := sdei_arch_get_entry_point (plat := plat) 2
             (kernel_at_boot tape_for_four_cpus) in
  r.1 = 0xffff000008083000 ∧ sdei_exit_mode r.2 = 0.
Proof. vm_compute. done. Qed.

Example run_entry_point_smc :
  let r := sdei_arch_get_entry_point (plat := plat_novmap) 1 (kernel_at_boot []) in
  r.1 = 0xffff000008083000 ∧ sdei_exit_mode r.2 = 1 ∧ mem r.2 = boot_arena [].
Proof. vm_compute. done. Qed.

Example run_dispatch_dispositions :
  (_sdei_handler (plat := plat) fw_context cb_ok (zero_regs 0x85) tt
     (cpu_el1 false)).1.1 = 0
  ∧ (_sdei_handler (plat := plat) fw_context cb_ok (zero_regs 0x5) tt
       (cpu_el1 false)).1.1 = 0xffff000008081280
  ∧ (_sdei_handler (plat := plat) fw_context cb_ok (zero_regs 0x10) tt
       (cpu_el1 false)).1.1 = 0xffff000008081680
  ∧ (_sdei_handler (plat := plat) fw_context cb_ok (zero_regs 0x0) tt
       (cpu_el1 false)).1.1 = 0xffff000008081480
  ∧ (_sdei_handler (plat := plat) fw_context cb_ok (zero_regs 0x4) tt
       (cpu_el1 false)).1.1 = 0xffff000008081480.
Proof. vm_compute. done. Qed.

Example run_dispatch_repairs_registers :
  take 5 (regs (_sdei_handler (plat := plat) fw_context cb_ok (zero_regs 0x5) tt
                  (cpu_el1 false)).1.2)
  = [0xa0; 0xa1; 0xa2; 0xa3; 0].
Proof. vm_compute. reflexivity. Qed.

Example run_dispatch_failed :
  _sdei_handler (plat := plat) fw_context cb_fail (zero_regs 0x5) tt (cpu_el1 false)
  = (1,
     mk_pt_regs ([0xa0; 0xa1; 0xa2; 0xa3] ++ replicate 27 0) 0 0 0x5,
     mk_cpu (mk_sysregs 0xffff000008123456 4 0xffff000008081000 true) false
       [Ev_sdei_event_handler]).
Proof. vm_compute. reflexivity. Qed.

Example run_dispatch_warns :
  trace (_sdei_handler (plat := plat) fw_context cb_faulting (zero_regs 0x5) tt
           (cpu_el1 false)).2
  = [Ev_sdei_event_handler;
     Ev_pr_warn "sdei: unsafe: exception during handler"].
Proof. vm_compute. reflexivity. Qed.

Example run_wrapper_traces :
  trace (__sdei_handler (plat := plat) fw_context cb_ok (zero_regs 0x5) tt
           (cpu_el1 false)).2
  = [Ev_nmi_enter; Ev_sdei_event_handler; Ev_nmi_exit]
  ∧ trace (__sdei_handler (plat := plat) fw_context cb_fail (zero_regs 0x5) tt
             (cpu_el1 false)).2
    = [Ev_nmi_enter; Ev_sdei_event_handler; Ev_nmi_exit]
  ∧ trace (__sdei_handler (plat := plat) fw_context cb_ok (zero_regs 0x5) tt
             (cpu_el1 true)).2
    = [Ev_sdei_event_handler].
Proof. vm_compute. done. Qed.

End Runs.

(** * More on the stack arena: arming that succeeds *)

Section ArmingFacts.
Import Arena Slots.
Context {plat : Platform}.

(** A request that succeeds takes the head of the tape, makes it live
    and records it in the slot. *)
Lemma init_one_ok sl s sa :
  ENOMEM ≠ 0 → _init_sdei_stack sl.1 sl.2 s = (0, sa) →
  ∃ p tape, vmalloc_tape s = p :: tape ∧ p ≠ 0
    ∧ slot_value sl sa = p
    ∧ vmalloc_tape sa = tape
    ∧ vmalloc_live sa = {[p]} ∪ vmalloc_live s
    ∧ ∀ sl', sl' ≠ sl → slot_value sl' sa = slot_value sl' s.
Proof.
  intros Hnz. destruct sl as [v c].
  unfold _init_sdei_stack, arch_alloc_vmap_stack; simpl.
  destruct (vmalloc_tape s) as [| p tape] eqn:Htape; [intros [= ? _]; lia|].
  destruct (Z.eqb_spec p 0) as [-> | Hp]; [simpl; intros [= ? _]; lia|].
  apply Z.eqb_neq in Hp as Hpb. rewrite Hpb. intros [= <-].
  exists p, tape. split; [done|]. split; [done|].
  unfold slot_value; simpl. rewrite per_cpu_set_eq.
  split; [done|]. split; [by destruct v|]. split; [by destruct v|].
  intros [v' c'] Hne. simpl. rewrite per_cpu_set_other; [by destruct v'|].
  destruct (decide (v' = v)); [right | left]; naive_solver.
Qed.

(** The loop never returns anything but 0 or [-ENOMEM]. *)
Lemma init_slots_err slots : ∀ s,
  (init_slots slots s).1 = 0 ∨ (init_slots slots s).1 = - ENOMEM.
Proof.
  induction slots as [| sl slots IH]; intros s; simpl; [by left|].
  destruct (_init_sdei_stack sl.1 sl.2 s) as [e sa] eqn:Hone.
  apply init_one_spec in Hone as (_ & _ & [(-> & _) | (-> & _)]).
  - destruct (negb (- ENOMEM =? 0)); [by right | apply IH].
  - simpl. apply IH.
Qed.

(** A loop over distinct slots that returns 0 has served request [i]
    to slot [i]. *)
Lemma init_slots_ok slots :
  ENOMEM ≠ 0 → NoDup slots → ∀ s s1,
  init_slots slots s = (0, s1) →
  (∀ i sl, slots !! i = Some sl →
     vmalloc_tape s !! i = Some (slot_value sl s1) ∧ slot_value sl s1 ≠ 0)
  ∧ vmalloc_tape s1 = drop (length slots) (vmalloc_tape s)
  ∧ (∀ sl, sl ∉ slots → slot_value sl s1 = slot_value sl s)
  ∧ vmalloc_live s1
    = list_to_set (take (length slots) (vmalloc_tape s)) ∪ vmalloc_live s.
Proof.
  intros Hnz. induction 1 as [| sl slots Hnotin Hnd IH]; intros s s1 Hrun.
  - simpl in Hrun. injection Hrun as <-. simpl.
    split; [intros i sl Hi; by rewrite lookup_nil in Hi|].
    split; [by rewrite drop_0|]. split; [done|]. set_solver.
  - simpl in Hrun.
    destruct (_init_sdei_stack sl.1 sl.2 s) as [e sa] eqn:Hone.
    destruct (Z.eqb_spec e 0) as [-> | He]; simpl in Hrun;
      [| injection Hrun as -> _; done].
    apply (init_one_ok _ _ _ Hnz) in Hone
      as (p & tape & Htape & Hp & Hval & Htape' & Hlive & Hframe).
    destruct (IH _ _ Hrun) as (I1 & I2 & I3 & I4).
    rewrite Htape. split; [| split; [| split]].
    + intros [| i] sl' Hi; simpl in Hi |- *.
      * injection Hi as <-. rewrite I3 by done. by rewrite Hval.
      * rewrite Htape' in I1. by apply I1.
    + simpl. by rewrite I2, Htape'.
    + intros sl' Hout. rewrite I3.
      * apply Hframe. intros ->. apply Hout. by left.
      * intros Hin. apply Hout. by right.
    + simpl. rewrite I4, Hlive, Htape'. set_solver.
Qed.

Lemma init_one_head v c s p tape :
  vmalloc_tape s = p :: tape → p ≠ 0 →
  _init_sdei_stack v c s
  = (0, per_cpu_set v c p
          (mk_arena (normal_ptr s) (critical_ptr s)
                    ({[p]} ∪ vmalloc_live s) tape)).
Proof.
  intros Htape Hp. unfold _init_sdei_stack, arch_alloc_vmap_stack.
  rewrite Htape. apply Z.eqb_neq in Hp. rewrite Hp. simpl. by rewrite Hp.
Qed.

(** A loop all of whose requests succeed returns 0. *)
Lemma init_slots_all_ok slots : ∀ s,
  (∀ j, (j < length slots)%nat → request_outcome s j ≠ 0) →
  (init_slots slots s).1 = 0.
Proof.
  unfold request_outcome.
  induction slots as [| sl slots IH]; intros s Hall; simpl; [done|].
  pose proof (Hall 0%nat ltac:(simpl; lia)) as H0.
  destruct (vmalloc_tape s) as [| p tape] eqn:Htape; [done|].
  simpl in H0. rewrite (init_one_head _ _ _ _ _ Htape H0). simpl.
  apply IH. intros j Hj. specialize (Hall (S j) ltac:(simpl; lia)).
  by destruct sl as [[] c].
Qed.

Lemma cpu_slots_lookup cpus : ∀ i cpu,
  cpus !! i = Some cpu →
  cpu_slots cpus !! (2 * i)%nat = Some (sdei_stack_normal_ptr, cpu)
  ∧ cpu_slots cpus !! (2 * i + 1)%nat = Some (sdei_stack_critical_ptr, cpu).
Proof.
  induction cpus as [| c cpus IH]; intros [| i] cpu Hi; simpl in Hi; try done.
  - by injection Hi as <-.
  - destruct (IH _ _ Hi) as [Hn Hc].
    replace (2 * S i)%nat with (S (S (2 * i))) by lia.
    replace (S (S (2 * i)) + 1)%nat with (S (S (2 * i + 1))) by lia.
    done.
Qed.

End ArmingFacts.

Section ArmingTheorems.
Import Arena Slots.
Context {plat : Platform}.

Lemma init_sdei_stacks_loop s :
  (init_sdei_stacks s).1 = (init_slots (cpu_slots for_each_possible_cpu) s).1
  ∧ ((init_slots (cpu_slots for_each_possible_cpu) s).1 = 0 →
     (init_sdei_stacks s).2
     = (init_slots (cpu_slots for_each_possible_cpu) s).2)
  ∧ ((init_slots (cpu_slots for_each_possible_cpu) s).1 ≠ 0 →
     (init_sdei_stacks s).2
     = free_sdei_stacks (init_slots (cpu_slots for_each_possible_cpu) s).2).
Proof.
  unfold init_sdei_stacks. rewrite init_on_slots.
  destruct (init_slots (cpu_slots for_each_possible_cpu) s) as [e s1]. simpl.
  destruct (Z.eqb_spec e 0); simpl; done.
Qed.

Lemma init_sdei_stacks_ok s s' :
  init_sdei_stacks s = (0, s') →
  init_slots (cpu_slots for_each_possible_cpu) s = (0, s').
Proof.
  intros Hrun. destruct (init_sdei_stacks_loop s) as (He & Hok & _).
  rewrite Hrun in He, Hok. simpl in *.
  destruct (init_slots (cpu_slots for_each_possible_cpu) s) as [e s1].
  simpl in *. subst e. by rewrite Hok.
Qed.

(** X1: arming that succeeds serves the requests in order: the [i]-th
    possible cpu gets request [2i] as its normal stack and request
    [2i+1] as its critical stack, neither NULL; exactly two requests per
    possible cpu are consumed and their regions become live. *)
Theorem init_sdei_stacks_success_layout (s s' : arena) (i cpu : nat) :
  ENOMEM ≠ 0 →
  init_sdei_stacks s = (0, s') →
  for_each_possible_cpu !! i = Some cpu →
  vmalloc_tape s !! (2 * i)%nat = Some (per_cpu sdei_stack_normal_ptr cpu s')
  ∧ per_cpu sdei_stack_normal_ptr cpu s' ≠ 0
  ∧ vmalloc_tape s !! (2 * i + 1)%nat
    = Some (per_cpu sdei_stack_critical_ptr cpu s')
  ∧ per_cpu sdei_stack_critical_ptr cpu s' ≠ 0
  ∧ vmalloc_tape s'
    = drop (2 * length for_each_possible_cpu) (vmalloc_tape s)
  ∧ vmalloc_live s'
    = list_to_set (take (2 * length for_each_possible_cpu) (vmalloc_tape s))
      ∪ vmalloc_live s.
Proof.
  intros Hnz Hrun Hcpu. apply init_sdei_stacks_ok in Hrun.
  apply (init_slots_ok _ Hnz) in Hrun as (I1 & I2 & _ & I4);
    [| apply NoDup_cpu_slots, NoDup_for_each_possible_cpu].
  rewrite length_cpu_slots in I2, I4.
  destruct (cpu_slots_lookup _ _ _ Hcpu) as [Hn Hc].
  destruct (I1 _ _ Hn) as [Hn1 Hn2]. destruct (I1 _ _ Hc) as [Hc1 Hc2].
  done.
Qed.

(** X2: arming returns 0 exactly when the first two requests per possible
    cpu all succeed, and returns [-ENOMEM] otherwise, never another
    value. *)
Theorem init_sdei_stacks_succeeds_iff (s : arena) :
  ENOMEM ≠ 0 →
  ((init_sdei_stacks s).1 = 0
   ↔ ∀ j, (j < 2 * length for_each_possible_cpu)%nat → request_outcome s j ≠ 0)
  ∧ ((init_sdei_stacks s).1 = 0 ∨ (init_sdei_stacks s).1 = - ENOMEM).
Proof.
  intros Hnz. destruct (init_sdei_stacks_loop s) as (He & _).
  rewrite He, <- length_cpu_slots. split; [| apply init_slots_err]. split.
  - intros Hok j Hj.
    destruct (init_slots (cpu_slots for_each_possible_cpu) s) as [e s1] eqn:Hrun.
    simpl in Hok. subst e.
    apply (init_slots_ok _ Hnz) in Hrun as (I1 & _);
      [| apply NoDup_cpu_slots, NoDup_for_each_possible_cpu].
    destruct (lookup_lt_is_Some_2 _ _ Hj) as [sl Hsl].
    destruct (I1 _ _ Hsl) as [Hreq Hval].
    unfold request_outcome. by rewrite Hreq.
  - apply init_slots_all_ok.
Qed.

(** X3: when the allocator hands out distinct regions, arming that succeeds
    gives every (variable, cpu) its own region: no stack is shared
    between the two priorities or between two cpus. *)
Theorem init_sdei_stacks_distinct_stacks (s s' : arena) v c v' c' :
  ENOMEM ≠ 0 →
  init_sdei_stacks s = (0, s') →
  NoDup (take (2 * length for_each_possible_cpu) (vmalloc_tape s)) →
  c ∈ for_each_possible_cpu → c' ∈ for_each_possible_cpu →
  (v, c) ≠ (v', c') →
  per_cpu v c s' ≠ per_cpu v' c' s'.
Proof.
  intros Hnz Hrun Hnd Hc Hc' Hne Heq. apply init_sdei_stacks_ok in Hrun.
  apply (init_slots_ok _ Hnz) in Hrun as (I1 & _);
    [| apply NoDup_cpu_slots, NoDup_for_each_possible_cpu].
  apply (elem_of_cpu_slots v) in Hc. apply (elem_of_cpu_slots v') in Hc'.
  apply list_elem_of_lookup in Hc as [i Hi].
  apply list_elem_of_lookup in Hc' as [j Hj].
  destruct (I1 _ _ Hi) as [Hti _]. destruct (I1 _ _ Hj) as [Htj _].
  unfold slot_value in Hti, Htj. simpl in Hti, Htj.
  pose proof (lookup_lt_Some _ _ _ Hi) as Hli.
  pose proof (lookup_lt_Some _ _ _ Hj) as Hlj.
  rewrite length_cpu_slots in Hli, Hlj.
  assert (i = j) as ->.
  { eapply NoDup_lookup; [exact Hnd | |].
    - rewrite lookup_take_lt by done. exact Hti.
    - rewrite lookup_take_lt by done. by rewrite Htj, Heq. }
  congruence.
Qed.

End ArmingTheorems.

Section DisarmTheorems.
Import Arena Slots.
Context {plat : Platform}.

Lemma tape_free_slots slots : ∀ s,
  vmalloc_tape (free_slots slots s) = vmalloc_tape s.
Proof.
  induction slots as [| sl slots IH]; intros s; simpl; [done|].
  change (vmalloc_tape (free_slots slots (_free_sdei_stack sl.1 sl.2 s))
          = vmalloc_tape s).
  rewrite IH. unfold _free_sdei_stack.
  destruct (per_cpu sl.1 sl.2 s =? 0); [done|]. by destruct sl as [[] c].
Qed.

Lemma slot_value_free_slots slots : ∀ s sl,
  sl ∉ slots → slot_value sl (free_slots slots s) = slot_value sl s.
Proof.
  induction slots as [| sl' slots IH]; intros s sl Hout; simpl; [done|].
  change (slot_value sl (free_slots slots (_free_sdei_stack sl'.1 sl'.2 s))
          = slot_value sl s).
  rewrite IH by (intros Hin; apply Hout; by right).
  rewrite slot_value_free. case_decide as Heq; [| done].
  subst sl'. exfalso. apply Hout. by left.
Qed.

(** X4: [free_sdei_stacks] releases exactly the regions recorded for the
    possible cpus and nothing else: any other live region stays live,
    the pointers of other cpus and the allocator are untouched. *)
Theorem free_sdei_stacks_exact (s : arena) :
  (∀ p, p ∈ vmalloc_live (free_sdei_stacks s)
        ↔ p ∈ vmalloc_live s
          ∧ ¬ (p ≠ 0 ∧ ∃ v cpu, cpu ∈ for_each_possible_cpu
                                ∧ per_cpu v cpu s = p))
  ∧ vmalloc_tape (free_sdei_stacks s) = vmalloc_tape s
  ∧ (∀ v cpu, cpu ∉ for_each_possible_cpu →
       per_cpu v cpu (free_sdei_stacks s) = per_cpu v cpu s).
Proof.
  split; [| split].
  - intros p. rewrite live_free_sdei_stacks. unfold held.
    split; intros [Hlive Hnot]; (split; [done|]).
    + intros (Hnz & v & cpu & Hin & Hval). apply Hnot. split; [done|].
      exists (v, cpu). by rewrite elem_of_cpu_slots.
    + intros (Hnz & [v cpu] & Hin & Hval). apply Hnot. split; [done|].
      exists v, cpu. by rewrite <- (elem_of_cpu_slots v).
  - unfold free_sdei_stacks. rewrite free_on_slots. apply tape_free_slots.
  - intros v cpu Hout. unfold free_sdei_stacks. rewrite free_on_slots.
    apply (slot_value_free_slots _ s (v, cpu)).
    by rewrite elem_of_cpu_slots.
Qed.

Lemma live_after_loop_and_free s e s1 :
  unarmed s → tape_fresh s →
  init_slots (cpu_slots for_each_possible_cpu) s = (e, s1) →
  vmalloc_live (free_sdei_stacks s1) = vmalloc_live s.
Proof.
  intros Hunarmed Hfresh Hloop.
  apply init_slots_spec in Hloop as (I1 & I2 & _ & _).
  - apply set_eq. intros p. rewrite live_free_sdei_stacks, I1. split.
    + intros [[Hp | Hheld] Hnot]; done.
    + intros Hp. split; [by left|].
      intros (Hnz & sl & Hin & Hval).
      destruct (I2 _ Hin) as [Hz | Htape]; [congruence|].
      rewrite Hval in Htape. by apply (Hfresh p).
  - apply NoDup_cpu_slots, NoDup_for_each_possible_cpu.
  - intros [v c] Hin. apply elem_of_cpu_slots in Hin. by apply Hunarmed.
Qed.

(** X5: arming an arena that was not armed and then disarming it, whether
    arming succeeded or failed, leaves the live regions as they were
    before arming and every pointer of every possible cpu NULL. *)
Theorem init_then_free_sdei_stacks (s : arena) :
  unarmed s → tape_fresh s →
  vmalloc_live (free_sdei_stacks (init_sdei_stacks s).2) = vmalloc_live s
  ∧ unarmed (free_sdei_stacks (init_sdei_stacks s).2).
Proof.
  intros Hunarmed Hfresh. split.
  - destruct (init_sdei_stacks_loop s) as (_ & Hok & Hfail).
    destruct (init_slots (cpu_slots for_each_possible_cpu) s) as [e s1] eqn:Hloop.
    simpl in Hok, Hfail.
    destruct (decide (e = 0)) as [He | He].
    + rewrite Hok by done. by eapply live_after_loop_and_free.
    + rewrite Hfail by done.
      change (free_sdei_stacks (free_sdei_stacks s1))
        with (free_sdei_stacks_on for_each_possible_cpu (free_sdei_stacks s1)).
      rewrite (free_on_unarmed for_each_possible_cpu (free_sdei_stacks s1)).
      * by eapply live_after_loop_and_free.
      * intros c v Hin. by apply free_sdei_stacks_nulls.
  - intros cpu v Hin. by apply free_sdei_stacks_nulls.
Qed.

(** X6: arming does not free what the slots held before: when an armed
    arena is armed again and that succeeds, a region the first arming
    had recorded is in no slot any more, and it is still live after a
    later disarm. *)
Theorem init_sdei_stacks_rearm_leaks (s s' : arena) (v : percpu_var)
    (cpu : nat) :
  ENOMEM ≠ 0 → tape_fresh s →
  init_sdei_stacks s = (0, s') →
  per_cpu v cpu s ≠ 0 → per_cpu v cpu s ∈ vmalloc_live s →
  (∀ v' cpu', cpu' ∈ for_each_possible_cpu →
     per_cpu v' cpu' s' ≠ per_cpu v cpu s)
  ∧ per_cpu v cpu s ∈ vmalloc_live (free_sdei_stacks s').
Proof.
  intros Hnz Hfresh Hrun Hp Hlive. apply init_sdei_stacks_ok in Hrun.
  apply (init_slots_ok _ Hnz) in Hrun as (I1 & _ & _ & I4);
    [| apply NoDup_cpu_slots, NoDup_for_each_possible_cpu].
  assert (Hnotheld : ∀ v' cpu', cpu' ∈ for_each_possible_cpu →
            per_cpu v' cpu' s' ≠ per_cpu v cpu s).
  { intros v' cpu' Hin Heq. apply (elem_of_cpu_slots v') in Hin.
    apply list_elem_of_lookup in Hin as [i Hi].
    destruct (I1 _ _ Hi) as [Hti _]. unfold slot_value in Hti. simpl in Hti.
    apply (Hfresh (per_cpu v cpu s)); [| done | done].
    apply list_elem_of_lookup. exists i. by rewrite Hti, Heq. }
  split; [done|].
  apply live_free_sdei_stacks. split.
  - rewrite I4. set_solver.
  - intros (_ & [v' cpu'] & Hin & Hval). apply elem_of_cpu_slots in Hin.
    by apply (Hnotheld v' cpu').
Qed.

End DisarmTheorems.

Section MembershipEdges.
Import Arena.
Context {plat : Platform}.

Lemma range_check_wraps base sp :
  0 <= base < 2 ^ 64 → 0 <= SDEI_STACK_SIZE < 2 ^ 64 →
  2 ^ 64 <= base + SDEI_STACK_SIZE →
  range_check base sp = false.
Proof.
  intros Hb Hs Hwrap. unfold range_check, u64.
  assert ((base + SDEI_STACK_SIZE) mod 2 ^ 64 = base + SDEI_STACK_SIZE - 2 ^ 64)
    as ->.
  { symmetry. apply Z.mod_unique with (q := 1); lia. }
  apply andb_false_iff.
  destruct (Z.leb_spec base sp); [right; apply Z.ltb_ge; lia | by left].
Qed.

(** X7: a recorded base whose region reaches the top of the 64-bit address
    space makes the sum [low + SDEI_STACK_SIZE] wrap, and that region
    never matches: the test answers for the other region alone, and is
    false for every [sp] when both wrap. *)
Theorem on_sdei_stack_wraps (this_cpu : nat) (s : arena) (sp : Z) :
  CONFIG_VMAP_STACK = true →
  0 <= SDEI_STACK_SIZE < 2 ^ 64 →
  (0 <= per_cpu sdei_stack_critical_ptr this_cpu s < 2 ^ 64 →
   2 ^ 64 <= per_cpu sdei_stack_critical_ptr this_cpu s + SDEI_STACK_SIZE →
   _on_sdei_stack this_cpu s sp
   = range_check (per_cpu sdei_stack_normal_ptr this_cpu s) sp)
  ∧ (0 <= per_cpu sdei_stack_normal_ptr this_cpu s < 2 ^ 64 →
     2 ^ 64 <= per_cpu sdei_stack_normal_ptr this_cpu s + SDEI_STACK_SIZE →
     _on_sdei_stack this_cpu s sp
     = range_check (per_cpu sdei_stack_critical_ptr this_cpu s) sp).
Proof.
  intros Hvmap Hsize. rewrite on_sdei_stack_vmap by done. split.
  - intros Hb Hwrap. by rewrite range_check_wraps.
  - intros Hb Hwrap. rewrite (range_check_wraps _ sp Hb Hsize Hwrap).
    by destruct (range_check _ sp).
Qed.

(** X8: the first and the last byte of each stack of the calling cpu are on
    the stack; the address one past the end of a stack, where the stack
    pointer of an empty stack points, is on the stack only if it falls
    into the cpu's other stack. *)
Theorem on_sdei_stack_bounds (this_cpu : nat) (s : arena) :
  CONFIG_VMAP_STACK = true → 0 < SDEI_STACK_SIZE →
  region_in_address_space (per_cpu sdei_stack_critical_ptr this_cpu s) →
  region_in_address_space (per_cpu sdei_stack_normal_ptr this_cpu s) →
  let crit := per_cpu sdei_stack_critical_ptr this_cpu s in
  let norm := per_cpu sdei_stack_normal_ptr this_cpu s in
  _on_sdei_stack this_cpu s crit = true
  ∧ _on_sdei_stack this_cpu s (crit + SDEI_STACK_SIZE - 1) = true
  ∧ _on_sdei_stack this_cpu s norm = true
  ∧ _on_sdei_stack this_cpu s (norm + SDEI_STACK_SIZE - 1) = true
  ∧ (_on_sdei_stack this_cpu s (crit + SDEI_STACK_SIZE) = true
     ↔ in_region norm (crit + SDEI_STACK_SIZE))
  ∧ (_on_sdei_stack this_cpu s (norm + SDEI_STACK_SIZE) = true
     ↔ in_region crit (norm + SDEI_STACK_SIZE)).
Proof.
  intros Hvmap Hsize Hcrit Hnorm crit norm.
  assert (Hiff : ∀ sp, _on_sdei_stack this_cpu s sp = true
                       ↔ in_region crit sp ∨ in_region norm sp).
  { intros sp. rewrite on_sdei_stack_vmap by done. subst crit norm.
    destruct (range_check (per_cpu sdei_stack_critical_ptr this_cpu s) sp)
      eqn:Hc.
    - apply (range_test _ sp Hcrit) in Hc. naive_solver.
    - unfold range_check at 1. rewrite (range_test _ sp Hnorm).
      split; [by right|]. intros [Hin | Hin]; [| done].
      apply (range_test _ sp Hcrit) in Hin. unfold range_check in Hc.
      congruence. }
  rewrite !Hiff. unfold in_region.
  unfold region_in_address_space in Hcrit, Hnorm.
  repeat split; try (left; lia); try (right; lia); try lia;
    intros [? | ?]; lia.
Qed.

End MembershipEdges.

Lemma init_sdei_stacks_success_layout_witness :
  Arena.vmalloc_tape (boot_arena tape_for_two_armings) !! 5%nat
  = Some (Arena.per_cpu Arena.sdei_stack_critical_ptr 2 arena_armed)
  ∧ Arena.vmalloc_tape arena_armed
    = drop (2 * length (for_each_possible_cpu (plat := arm64_vmap)))
        tape_for_two_armings.
Proof.
  destruct (init_sdei_stacks_success_layout (plat := arm64_vmap)
              (boot_arena tape_for_two_armings) arena_armed 2 2
              ltac:(simpl; lia) ltac:(vm_compute; reflexivity) eq_refl)
    as (_ & _ & Hc & _ & Htape & _).
  split; [exact Hc | exact Htape].
Defined.

Lemma init_sdei_stacks_succeeds_iff_witness :
  (Arena.init_sdei_stacks (plat := arm64_vmap) arena_failing_at_cpu1).1 = 0
  ∨ (Arena.init_sdei_stacks (plat := arm64_vmap) arena_failing_at_cpu1).1
    = - 12.
Proof.
  apply (init_sdei_stacks_succeeds_iff (plat := arm64_vmap)
           arena_failing_at_cpu1).
  simpl. lia.
Defined.

Lemma init_sdei_stacks_distinct_stacks_witness :
  Arena.per_cpu Arena.sdei_stack_normal_ptr 1 arena_armed
  ≠ Arena.per_cpu Arena.sdei_stack_critical_ptr 1 arena_armed.
Proof.
  apply (init_sdei_stacks_distinct_stacks (plat := arm64_vmap)
           (boot_arena tape_for_two_armings)).
  - simpl. lia.
  - vm_compute. reflexivity.
  - vm_compute. repeat (constructor; [set_solver|]). constructor.
  - vm_compute. set_solver.
  - vm_compute. set_solver.
  - discriminate.
Defined.

Lemma init_then_free_sdei_stacks_witness :
  Arena.vmalloc_live
    (Arena.free_sdei_stacks (plat := arm64_vmap)
       (Arena.init_sdei_stacks (plat := arm64_vmap)
          (boot_arena tape_for_four_cpus)).2) = ∅.
Proof.
  apply (init_then_free_sdei_stacks (plat := arm64_vmap)
           (boot_arena tape_for_four_cpus)).
  - intros cpu v _. by destruct v.
  - intros p _ _. apply not_elem_of_empty.
Defined.

Lemma init_sdei_stacks_rearm_leaks_witness :
  0xffff00000a050000
  ∈ Arena.vmalloc_live
      (Arena.free_sdei_stacks (plat := arm64_vmap)
         (Arena.init_sdei_stacks (plat := arm64_vmap) arena_armed).2).
Proof.
  apply (init_sdei_stacks_rearm_leaks (plat := arm64_vmap) arena_armed
           (Arena.init_sdei_stacks (plat := arm64_vmap) arena_armed).2
           Arena.sdei_stack_critical_ptr 2).
  - simpl. lia.
  - intros p Hp Hnz Hlive. vm_compute in Hp, Hlive.
    set_solver.
  - vm_compute. reflexivity.
  - vm_compute. discriminate.
  - vm_compute. set_solver.
Defined.

Lemma on_sdei_stack_wraps_witness :
  Arena._on_sdei_stack (plat := arm64_vmap) 0 arena_top_of_memory
    0xffffffffffffc000
  = range_check (plat := arm64_vmap) 0xffff00000a000000 0xffffffffffffc000.
Proof.
  refine (proj1 (on_sdei_stack_wraps (plat := arm64_vmap) 0
                   arena_top_of_memory 0xffffffffffffc000 eq_refl _) _ _).
  - simpl. lia.
  - vm_compute. intuition discriminate.
  - intros Hgt. vm_compute in Hgt. discriminate Hgt.
Defined.

Lemma on_sdei_stack_bounds_witness :
  Arena._on_sdei_stack (plat := arm64_vmap) 2 arena_partly_armed
    (0xffff00000a050000 + 16384 - 1) = true.
Proof.
  assert (Hregion : ∀ b, b = 0xffff00000a050000 ∨ b = 0xffff00000a040000 →
            region_in_address_space (plat := arm64_vmap) b).
  { intros b [-> | ->]; unfold region_in_address_space; simpl; lia. }
  destruct (on_sdei_stack_bounds (plat := arm64_vmap) 2 arena_partly_armed
              eq_refl eq_refl (Hregion _ (or_introl eq_refl))
              (Hregion _ (or_intror eq_refl)))
    as (_ & Hlast & _).
  revert Hlast. vm_compute. exact (fun H => H).
Defined.

(** * More on the entry-point resolver *)

Section ResolverExtras.
Import Arena Slots Resolver.
Context {plat : Platform}.

Lemma init_sdei_stacks_armed s :
  ENOMEM ≠ 0 → (init_sdei_stacks s).1 = 0 →
  ∀ v cpu, cpu ∈ for_each_possible_cpu →
    per_cpu v cpu (init_sdei_stacks s).2 ≠ 0.
Proof.
  intros Hnz Hok v cpu Hin.
  destruct (init_sdei_stacks s) as [e s'] eqn:Hrun. simpl in Hok. subst e.
  simpl. apply init_sdei_stacks_ok in Hrun.
  apply (init_slots_ok _ Hnz) in Hrun as (I1 & _);
    [| apply NoDup_cpu_slots, NoDup_for_each_possible_cpu].
  apply (elem_of_cpu_slots v) in Hin.
  apply list_elem_of_lookup in Hin as [i Hi].
  by destruct (I1 _ _ Hi) as [_ Hval].
Qed.

(** X9: when resolution succeeds, the handler's address is returned and
    nothing is logged; [SDEI_EXIT_HVC] is recorded for the HVC conduit
    and [SDEI_EXIT_SMC] for every other conduit value; with vmap'd
    stacks every possible cpu ends with both stacks recorded, and
    without them the arena is not touched. *)
Theorem sdei_arch_get_entry_point_success (conduit : Z) (k : kernel) :
  ENOMEM ≠ 0 → resolution_fails k = false →
  (sdei_arch_get_entry_point conduit k).1 = __sdei_asm_handler
  ∧ klog (sdei_arch_get_entry_point conduit k).2 = klog k
  ∧ (conduit = CONDUIT_HVC →
     sdei_exit_mode (sdei_arch_get_entry_point conduit k).2 = SDEI_EXIT_HVC)
  ∧ (conduit ≠ CONDUIT_HVC →
     sdei_exit_mode (sdei_arch_get_entry_point conduit k).2 = SDEI_EXIT_SMC)
  ∧ (CONFIG_VMAP_STACK = true →
     ∀ v cpu, cpu ∈ for_each_possible_cpu →
       per_cpu v cpu (mem (sdei_arch_get_entry_point conduit k).2) ≠ 0)
  ∧ (CONFIG_VMAP_STACK = false →
     mem (sdei_arch_get_entry_point conduit k).2 = mem k).
Proof.
  intros Hnz Hok. unfold resolution_fails in Hok.
  apply orb_false_iff in Hok as [Hhyp Harm].
  unfold sdei_arch_get_entry_point. rewrite Hhyp.
  destruct CONFIG_VMAP_STACK eqn:Hvmap; simpl in Harm.
  - apply negb_false_iff, Z.eqb_eq in Harm.
    pose proof (init_sdei_stacks_armed (mem k) Hnz Harm) as Harmed.
    destruct (init_sdei_stacks (mem k)) as [err m]. simpl in Harm, Harmed.
    subst err. simpl.
    split; [done|]. split; [done|]. split; [| split; [| split]]; try done.
    + intros ->. by rewrite Z.eqb_refl.
    + intros Hne. apply Z.eqb_neq in Hne. by rewrite Hne.
  - simpl.
    split; [done|]. split; [done|]. split; [| split; [| split]]; try done.
    + intros ->. by rewrite Z.eqb_refl.
    + intros Hne. apply Z.eqb_neq in Hne. by rewrite Hne.
Qed.

(** X10: when resolution fails on a kernel whose arena was not armed, no
    region is left live that was not live before and no pointer of a
    possible cpu is set, whichever check failed; only the
    privilege-level failure is logged. *)
Theorem sdei_arch_get_entry_point_failure_clean (conduit : Z) (k : kernel) :
  unarmed (mem k) → tape_fresh (mem k) →
  resolution_fails k = true →
  vmalloc_live (mem (sdei_arch_get_entry_point conduit k).2)
  = vmalloc_live (mem k)
  ∧ unarmed (mem (sdei_arch_get_entry_point conduit k).2)
  ∧ (is_hyp_mode_available && negb is_kernel_in_hyp_mode = false →
     klog (sdei_arch_get_entry_point conduit k).2 = klog k).
Proof.
  intros Hunarmed Hfresh Hfail. unfold resolution_fails in Hfail.
  unfold sdei_arch_get_entry_point.
  destruct (is_hyp_mode_available && negb is_kernel_in_hyp_mode) eqn:Hhyp.
  - simpl. done.
  - simpl in Hfail. apply andb_true_iff in Hfail as [Hvmap Herr].
    rewrite Hvmap. apply negb_true_iff, Z.eqb_neq in Herr.
    destruct (init_sdei_stacks_loop (mem k)) as (He & _ & Hstate).
    rewrite <- He in Hstate. specialize (Hstate Herr).
    destruct (init_sdei_stacks (mem k)) as [err m]. simpl in *.
    apply Z.eqb_neq in Herr as Herrb. rewrite Herrb. simpl.
    subst m. split; [| split; [| done]].
    + destruct (init_slots (cpu_slots for_each_possible_cpu) (mem k))
        as [e s1] eqn:Hloop.
      by eapply live_after_loop_and_free.
    + intros cpu v Hin. by apply free_sdei_stacks_nulls.
Qed.

End ResolverExtras.

(** The kernel after a resolution that succeeded with vmap'd stacks. *)
Lemma sdei_arch_get_entry_point_success_witness :
  (Resolver.sdei_arch_get_entry_point (plat := arm64_vmap) 1
     (kernel_at_boot tape_for_four_cpus)).1 = 0xffff000008083000
  ∧ Resolver.sdei_exit_mode
      (Resolver.sdei_arch_get_entry_point (plat := arm64_vmap) 1
         (kernel_at_boot tape_for_four_cpus)).2 = 1.
Proof.
  destruct (sdei_arch_get_entry_point_success (plat := arm64_vmap) 1
              (kernel_at_boot tape_for_four_cpus)
              ltac:(simpl; lia) ltac:(vm_compute; reflexivity))
    as (Hret & _ & _ & Hsmc & _).
  split; [exact Hret | apply Hsmc; simpl; lia].
Defined.

Lemma sdei_arch_get_entry_point_failure_clean_witness :
  Arena.vmalloc_live
    (Resolver.mem
       (Resolver.sdei_arch_get_entry_point (plat := arm64_vmap) 2
          (kernel_at_boot (Arena.vmalloc_tape arena_failing_at_cpu1))).2)
  = ∅.
Proof.
  apply (sdei_arch_get_entry_point_failure_clean (plat := arm64_vmap) 2
           (kernel_at_boot (Arena.vmalloc_tape arena_failing_at_cpu1))).
  - intros cpu v _. by destruct v.
  - intros p _ _. apply not_elem_of_empty.
  - vm_compute. reflexivity.
Defined.

(** * More on the dispatcher *)

Section DispatchExtras.
Import Dispatch.
Context {plat : Platform} {sdei_registered_event : Type}.
Variable sdei_api_event_context : Z → Z.
Variable sdei_event_handler :
  pt_regs → sdei_registered_event → cpu_state → Z * pt_regs * sysregs.

#[local] Abbreviation retrieve := (retrieve_registers sdei_api_event_context).
#[local] Abbreviation dispatch :=
  (_sdei_handler sdei_api_event_context sdei_event_handler).
#[local] Abbreviation wrapper :=
  (__sdei_handler sdei_api_event_context sdei_event_handler).

Lemma sdei_handler_result r arg s :
  ∃ ret warned,
    dispatch r arg s
    = (ret,
       (sdei_event_handler (retrieve clobbered_registers 0%nat r) arg
          (set_pstate_pan s)).1.2,
       state_after_callback s
         (sdei_event_handler (retrieve clobbered_registers 0%nat r) arg
            (set_pstate_pan s)).2 warned).
Proof.
  destruct (sdei_event_handler (retrieve clobbered_registers 0%nat r) arg
              (set_pstate_pan s)) as [[err r2] sys2] eqn:Hcb.
  destruct (decide (err = 0)) as [-> | Herr].
  - rewrite (sdei_handler_on_success _ _ _ _ _ _ _ Hcb). by eexists _, _.
  - rewrite (sdei_handler_on_failure _ _ _ _ _ _ _ _ Hcb Herr). by eexists _, _.
Qed.

(** X11: whatever the callback returns, the only writes the dispatcher makes
    to the snapshot are the four repaired registers: the callback is
    handed the snapshot with registers 0 to 3 replaced by the firmware's
    answers, registers 4 to 30, sp, pc and pstate as received, and the
    snapshot the dispatcher ends with is the one the callback left. *)
Theorem sdei_handler_snapshot r arg s :
  wf_pt_regs r →
  (dispatch r arg s).1.2
  = (sdei_event_handler (retrieve clobbered_registers 0%nat r) arg
       (set_pstate_pan s)).1.2
  ∧ regs (retrieve clobbered_registers 0%nat r)
    = [sdei_api_event_context 0; sdei_api_event_context 1;
       sdei_api_event_context 2; sdei_api_event_context 3]
      ++ drop 4 (regs r)
  ∧ wf_pt_regs (retrieve clobbered_registers 0%nat r)
  ∧ sp (retrieve clobbered_registers 0%nat r) = sp r
  ∧ pc (retrieve clobbered_registers 0%nat r) = pc r
  ∧ pstate (retrieve clobbered_registers 0%nat r) = pstate r.
Proof.
  intros Hwf. unfold wf_pt_regs in *.
  destruct (retrieve_frame sdei_api_event_context clobbered_registers 0%nat r)
    as (Hps & Hsp & Hpc & Hlen).
  split; [| split; [| split; [congruence | done]]].
  - destruct (sdei_handler_result r arg s) as (ret & warned & ->). done.
  - apply list_eq. intros i.
    rewrite retrieve_lookup by (unfold clobbered_registers; lia).
    unfold clobbered_registers.
    destruct (decide (i < 4)%nat) as [Hi | Hi].
    + case_decide; [| lia].
      destruct i as [| [| [| [| i]]]]; try done. lia.
    + case_decide; [lia|].
      replace i with (4 + (i - 4))%nat at 2 by lia.
      rewrite (lookup_app_r _ _ (4 + (i - 4))) by (simpl; lia).
      simpl. rewrite lookup_drop. f_equal. lia.
Qed.

(** X12: the dispatcher returns one of the two sentinels or the address of a
    vector: a 128-byte aligned address inside the 2KB table at VBAR_EL1,
    never anything else. *)
Theorem sdei_handler_ret_range r arg s :
  wf_vbar (vbar_el1 (sys s)) →
  (dispatch r arg s).1.1 = SDEI_EV_FAILED
  ∨ (dispatch r arg s).1.1 = SDEI_EV_HANDLED
  ∨ (vbar_el1 (sys s) <= (dispatch r arg s).1.1 < vbar_el1 (sys s) + 2048
     ∧ (dispatch r arg s).1.1 mod 128 = 0
     ∧ 0 <= (dispatch r arg s).1.1 < 2 ^ 64).
Proof.
  intros Hvbar.
  destruct (sdei_event_handler (retrieve clobbered_registers 0%nat r) arg
              (set_pstate_pan s)) as [[err r2] sys2] eqn:Hcb.
  destruct (decide (err = 0)) as [-> | Herr].
  - rewrite (sdei_handler_ret_on_success _ _ _ _ _ _ _ Hvbar Hcb).
    destruct Hvbar as [Hrange Halign].
    assert (Hvec : ∀ k, 0 <= k < 16 →
      vbar_el1 (sys s) <= vbar_el1 (sys s) + 128 * k < vbar_el1 (sys s) + 2048
      ∧ (vbar_el1 (sys s) + 128 * k) mod 128 = 0
      ∧ 0 <= vbar_el1 (sys s) + 128 * k < 2 ^ 64).
    { intros k Hk. pose proof (Z.div_mod (vbar_el1 (sys s)) 2048).
      split; [lia|]. split; [| lia].
      replace (vbar_el1 (sys s)) with (128 * (16 * (vbar_el1 (sys s) / 2048)))
        at 1 by lia.
      rewrite <- Z.mul_add_distr_l, Z.mul_comm. apply Z.mod_mul. lia. }
    unfold disposition_of.
    destruct (saved_mode _ =? _);
      [destruct (interrupts_masked _) | destruct (mode_is_32bit _)]; simpl.
    + right. by left.
    + right. right. apply (Hvec 5). lia.
    + right. right. apply (Hvec 13). lia.
    + right. right. apply (Hvec 9). lia.
  - rewrite (sdei_handler_on_failure _ _ _ _ _ _ _ _ Hcb Herr). by left.
Qed.

(** X13: after a callback that succeeded, SDEI_EV_HANDLED is returned
    exactly when the saved mode is the dispatcher's own and interrupts
    were masked: an interrupted context in any other mode is never
    resumed directly, masked or not. *)
Theorem sdei_handler_handled_iff r arg s r2 sys2 :
  wf_vbar (vbar_el1 (sys s)) →
  0 <= SDEI_EV_HANDLED < 0x280 →
  sdei_event_handler (retrieve clobbered_registers 0%nat r) arg (set_pstate_pan s)
  = (0, r2, sys2) →
  (dispatch r arg s).1.1 = SDEI_EV_HANDLED
  ↔ saved_mode (pstate r2) = dispatcher_mode (sys s)
    ∧ interrupts_masked (pstate r2) = true.
Proof.
  intros Hvbar Hh Hcb.
  rewrite (sdei_handler_ret_on_success _ _ _ _ _ _ _ Hvbar Hcb).
  destruct Hvbar as [Hrange _]. unfold disposition_of.
  destruct (Z.eqb_spec (saved_mode (pstate r2)) (dispatcher_mode (sys s)));
    [destruct (interrupts_masked _) | destruct (mode_is_32bit _)]; simpl;
    split; try done; try (intros [? ?]; done); intros; lia.
Qed.

(** X14: the dispatcher sets PSTATE.PAN where the build and the cpu have it
    and never clears or restores it: after a callback that leaves the
    system registers as it found them, PAN is set or as it was on
    entry, and ELR_EL1, CurrentEL and VBAR_EL1 are as on entry. *)
Theorem sdei_handler_pan r arg s :
  (sdei_event_handler (retrieve clobbered_registers 0%nat r) arg
     (set_pstate_pan s)).2 = sys (set_pstate_pan s) →
  PSTATE_PAN (sys (dispatch r arg s).2)
  = (CONFIG_ARM64_PAN && cpu_has_pan) || PSTATE_PAN (sys s)
  ∧ elr_el1 (sys (dispatch r arg s).2) = elr_el1 (sys s)
  ∧ CurrentEL (sys (dispatch r arg s).2) = CurrentEL (sys s)
  ∧ vbar_el1 (sys (dispatch r arg s).2) = vbar_el1 (sys s).
Proof.
  intros Hkeeps.
  destruct (sdei_handler_result r arg s) as (ret & warned & Heq).
  rewrite Hkeeps in Heq. rewrite Heq. simpl. unfold set_pstate_pan.
  by destruct (CONFIG_ARM64_PAN && cpu_has_pan).
Qed.

Lemma sdei_handler_value_depends_on_sys r arg s s' :
  (∀ r0 a s1 s2, sys s1 = sys s2 →
     sdei_event_handler r0 a s1 = sdei_event_handler r0 a s2) →
  sys s = sys s' →
  (dispatch r arg s).1 = (dispatch r arg s').1
  ∧ sys (dispatch r arg s).2 = sys (dispatch r arg s').2.
Proof.
  intros Hblind Hsys. unfold _sdei_handler.
  assert (Hpan : sys (set_pstate_pan s) = sys (set_pstate_pan s')).
  { unfold set_pstate_pan.
    destruct (CONFIG_ARM64_PAN && cpu_has_pan); simpl; by rewrite Hsys. }
  rewrite (Hblind _ arg _ _ Hpan), Hsys.
  destruct (sdei_event_handler _ arg (set_pstate_pan s')) as [[err r2] sys2].
  destruct (negb (err =? 0)); [done|]. simpl.
  repeat match goal with |- context [if ?b then _ else _] => destruct b end;
    done.
Qed.

(** X16: the wrapper leaves the NMI flag as it found it, whatever the
    callback does; and for a callback that looks at the system
    registers only, it returns the value and the snapshot the
    dispatcher alone would return, and leaves the same system
    registers. *)
Theorem sdei_wrapper_transparent r arg s :
  in_nmi (__sdei_handler sdei_api_event_context sdei_event_handler r arg s).2
  = in_nmi s
  ∧ ((∀ r0 a s1 s2, sys s1 = sys s2 →
        sdei_event_handler r0 a s1 = sdei_event_handler r0 a s2) →
     (__sdei_handler sdei_api_event_context sdei_event_handler r arg s).1
     = (_sdei_handler sdei_api_event_context sdei_event_handler r arg s).1
     ∧ sys (__sdei_handler sdei_api_event_context sdei_event_handler r arg s).2
       = sys (_sdei_handler sdei_api_event_context sdei_event_handler r arg s).2).
Proof.
  unfold __sdei_handler. destruct (in_nmi s) eqn:Hflag; simpl.
  - destruct (sdei_handler_nmi_frame sdei_api_event_context
                sdei_event_handler r arg s) as [Hnmi _].
    destruct (dispatch r arg s) as [[ret r'] s2]. simpl in *.
    split; [congruence | done].
  - split.
    + by destruct (dispatch r arg (nmi_enter s)) as [[ret r'] s2].
    + intros Hblind.
      destruct (sdei_handler_value_depends_on_sys r arg (nmi_enter s) s
                  Hblind eq_refl) as [Hval Hsys].
      destruct (dispatch r arg (nmi_enter s)) as [[ret r'] s2].
      simpl in *. done.
Qed.

End DispatchExtras.

Section DispatchTwoCallbacks.
Import Dispatch.
Context {plat : Platform} {sdei_registered_event : Type}.
Variable sdei_api_event_context : Z → Z.
Variables handler1 handler2 :
  pt_regs → sdei_registered_event → cpu_state → Z * pt_regs * sysregs.

(** X15: an exception taken by the callback is logged and changes nothing
    else: two callbacks that return the same code and the same snapshot
    get the same value and snapshot from the dispatcher, whatever each
    left in ELR_EL1 and the other system registers. *)
Theorem sdei_handler_ret_ignores_sysregs r arg s :
  (handler1 (retrieve_registers sdei_api_event_context clobbered_registers 0 r)
     arg (set_pstate_pan s)).1
  = (handler2 (retrieve_registers sdei_api_event_context clobbered_registers 0 r)
       arg (set_pstate_pan s)).1 →
  (_sdei_handler sdei_api_event_context handler1 r arg s).1
  = (_sdei_handler sdei_api_event_context handler2 r arg s).1.
Proof.
  intros Hsame. unfold _sdei_handler.
  destruct (handler1 _ arg (set_pstate_pan s)) as [[err1 r1] sys1].
  destruct (handler2 _ arg (set_pstate_pan s)) as [[err2 r2'] sys2'].
  simpl in Hsame. injection Hsame as -> ->.
  destruct (negb (err2 =? 0)); [done|]. simpl.
  repeat match goal with |- context [if ?b then _ else _] => destruct b end;
    done.
Qed.

End DispatchTwoCallbacks.

Lemma sdei_handler_snapshot_witness :
  Dispatch.regs
    (Dispatch.retrieve_registers fw_context Dispatch.clobbered_registers 0
       (zero_regs 0x5))
  = [fw_context 0; fw_context 1; fw_context 2; fw_context 3]
    ++ drop 4 (Dispatch.regs (zero_regs 0x5)).
Proof.
  apply (sdei_handler_snapshot (plat := arm64_vmap) fw_context cb_fail
           (zero_regs 0x5) tt (cpu_el1 false)).
  reflexivity.
Defined.

Lemma sdei_handler_ret_range_witness :
  let ret :=
    (Dispatch._sdei_handler (plat := arm64_vmap) fw_context cb_ok
       (zero_regs 0x10) tt (cpu_el1 false)).1.1 in
  ret = 1 ∨ ret = 0
  ∨ (0xffff000008081000 <= ret < 0xffff000008081000 + 2048
     ∧ ret mod 128 = 0 ∧ 0 <= ret < 2 ^ 64).
Proof.
  apply (sdei_handler_ret_range (plat := arm64_vmap) fw_context cb_ok
           (zero_regs 0x10) tt (cpu_el1 false)).
  unfold wf_vbar. vm_compute. intuition discriminate.
Defined.

Lemma sdei_handler_handled_iff_witness :
  (Dispatch._sdei_handler (plat := arm64_vmap) fw_context cb_mask_irq
     (zero_regs 0x5) tt (cpu_el1 false)).1.1 = 0.
Proof.
  refine (proj2 (sdei_handler_handled_iff (plat := arm64_vmap) fw_context
                   cb_mask_irq (zero_regs 0x5) tt (cpu_el1 false) _ _
                   _ _ eq_refl) _).
  - unfold wf_vbar. vm_compute. intuition discriminate.
  - simpl. lia.
  - vm_compute. done.
Defined.

Lemma sdei_handler_pan_witness :
  Dispatch.PSTATE_PAN
    (Dispatch.sys
       (Dispatch._sdei_handler (plat := arm64_vmap) fw_context cb_ok
          (zero_regs 0x5) tt (cpu_el1 false)).2)
  = true.
Proof.
  apply (sdei_handler_pan (plat := arm64_vmap) fw_context cb_ok
           (zero_regs 0x5) tt (cpu_el1 false)).
  reflexivity.
Defined.

Lemma sdei_wrapper_transparent_witness :
  (Dispatch.__sdei_handler (plat := arm64_vmap) fw_context cb_ok
     (zero_regs 0x5) tt (cpu_el1 false)).1
  = (Dispatch._sdei_handler (plat := arm64_vmap) fw_context cb_ok
       (zero_regs 0x5) tt (cpu_el1 false)).1.
Proof.
  apply (sdei_wrapper_transparent (plat := arm64_vmap) fw_context cb_ok
           (zero_regs 0x5) tt (cpu_el1 false)).
  intros r0 a s1 s2 Hsys. unfold cb_ok. by rewrite Hsys.
Defined.

Lemma sdei_handler_ret_ignores_sysregs_witness :
  (Dispatch._sdei_handler (plat := arm64_vmap) fw_context cb_ok
     (zero_regs 0x5) tt (cpu_el1 false)).1
  = (Dispatch._sdei_handler (plat := arm64_vmap) fw_context cb_faulting
       (zero_regs 0x5) tt (cpu_el1 false)).1.
Proof.
  apply (sdei_handler_ret_ignores_sysregs (plat := arm64_vmap) fw_context
           cb_ok cb_faulting (zero_regs 0x5) tt (cpu_el1 false)).
  reflexivity.
Defined.

(** * The compression sample *)

Section WdCreate.
Import Wd.
Variable alg_offset : Z.

Lemma wd_create_comp_ctx_cases q setup m p m' :
  wd_create_comp_ctx alg_offset q setup m = Some (p, m') →
  (q = 0 ∨ setup = 0) ∧ p = 0 ∧ m' = log "%s(): input param err!" [] m
  ∨ q ≠ 0 ∧ setup ≠ 0 ∧ (malloc m).1 = 0 ∧ p = 0
    ∧ m' = log "Alloc ctx memory fail!" [] (malloc m).2
  ∨ q ≠ 0 ∧ setup ≠ 0 ∧ p = (malloc m).1 ∧ p ≠ 0
    ∧ ∃ qv sv,
        queues m !! q = Some qv ∧ setups m !! setup = Some sv
        ∧ (length (capa_alg qv) ≤ 32)%nat
        ∧ m' = mk_umem (<[q := mk_queue (capa_alg qv) p]> (queues m)) (setups m)
                 (<[p := mk_ctx
                           (mk_msg (p + alg_offset) (u32 (setup_aflags sv))
                              0 0 0 0 0 (u8 (setup_comp_lv sv))
                              (u8 (setup_file_type sv))
                              (u8 (setup_humm_type sv)) 0
                              (u32 (setup_win_size sv)) 0 0 0)
                           q (setup_cb sv)
                           (capa_alg qv
                            ++ replicate (32 - length (capa_alg qv)) 0)]>
                    (ctxs m))
                 (malloc_tape (malloc m).2) (wd_err m).
Proof.
  unfold wd_create_comp_ctx.
  destruct (Z.eqb_spec q 0) as [-> | Hq]; simpl.
  { intros [= <- <-]. left. split; [by left | done]. }
  destruct (Z.eqb_spec setup 0) as [-> | Hs]; simpl.
  { intros [= <- <-]. left. split; [by right | done]. }
  destruct (malloc m) as [ctx m1] eqn:Hmalloc.
  assert (Hsame : queues m1 = queues m ∧ setups m1 = setups m
                  ∧ ctxs m1 = ctxs m ∧ wd_err m1 = wd_err m).
  { unfold malloc in Hmalloc. destruct (malloc_tape m);
      injection Hmalloc as <- <-; done. }
  destruct Hsame as (Hqs & Hss & Hcs & Hes).
  destruct (Z.eqb_spec ctx 0) as [-> | Hctx].
  { intros [= <- <-]. right. left. done. }
  rewrite Hqs, Hss, Hcs, Hes.
  destruct (queues m !! q) as [qv |] eqn:Hqv; [| done].
  destruct (setups m !! setup) as [sv |] eqn:Hsv; [| done].
  destruct (32 <? length (capa_alg qv))%nat eqn:Hlen; [done|].
  apply Nat.ltb_ge in Hlen.
  intros [= <- <-]. right. right. simpl.
  split; [done|]. split; [done|]. split; [done|]. split; [done|].
  by exists qv, sv.
Qed.


(** X19: deleting a context that was created frees it and leaves the queue
    pointing at it; deleting it a second time has no defined
    behaviour, while deleting NULL changes nothing. *)
Theorem wd_del_comp_ctx_dangling q setup m p m' :
  wd_create_comp_ctx alg_offset q setup m = Some (p, m') → p ≠ 0 →
  ∃ m'',
    wd_del_comp_ctx p m' = Some m''
    ∧ ctxs m'' !! p = None
    ∧ queue_ctx <$> queues m'' !! q = Some p
    ∧ wd_del_comp_ctx p m'' = None
    ∧ wd_del_comp_ctx 0 m'' = Some m''.
Proof.
  intros Hrun Hp. apply wd_create_comp_ctx_cases in Hrun
    as [(_ & -> & _) | [(_ & _ & _ & -> & _) | (Hq & Hs & -> & _ & Hok)]];
    try done.
  destruct Hok as (qv & sv & Hqv & Hsv & Hlen & ->).
  unfold wd_del_comp_ctx. apply Z.eqb_neq in Hp as Hpb. rewrite Hpb. simpl.
  rewrite lookup_insert_eq.
  eexists. split; [done|]. simpl.
  rewrite lookup_delete_eq, lookup_insert_eq. done.
Qed.

End WdCreate.

Section WdAlg.
Import Wd.

Lemma wd_comp_ctx_layout :
  sizeof_struct wd_comp_msg_members = 64
  ∧ member_offsets 0 wd_comp_ctx_members = [0; 64; 72; 80]
  ∧ offsetof_alg = 80 ∧ sizeof_wd_comp_ctx = 112.
Proof. vm_compute. done. Qed.

(** X18: a context created with the layout of [struct wd_comp_ctx] has
    an [alg] of 32 bytes that starts with the queue's algorithm name and
    is zero after it: it holds a NUL-terminated copy when the name has
    fewer than 32 characters, and the 32 characters without a NUL when
    it has 32.  The pointer stored in the message is the address of that
    array, 80 bytes into the context, the array being the last 32 bytes
    of the object; the queue points back to the context. *)
Theorem wd_create_comp_ctx_alg q setup m p m' :
  wd_create_comp_ctx offsetof_alg q setup m = Some (p, m') → p ≠ 0 →
  ∃ qv c,
    queues m !! q = Some qv ∧ ctxs m' !! p = Some c
    ∧ queues m' !! q = Some (mk_queue (capa_alg qv) p)
    ∧ ctx_q c = q
    ∧ alg (cache_msg c) = p + 80
    ∧ alg (cache_msg c) + 32 = p + sizeof_wd_comp_ctx
    ∧ length (ctx_alg c) = 32%nat
    ∧ take (length (capa_alg qv)) (ctx_alg c) = capa_alg qv
    ∧ (∀ i, (length (capa_alg qv) ≤ i < 32)%nat → ctx_alg c !! i = Some 0)
    ∧ (length (capa_alg qv) = 32%nat → ctx_alg c = capa_alg qv).
Proof.
  intros Hrun Hp. apply wd_create_comp_ctx_cases in Hrun
    as [(_ & -> & _) | [(_ & _ & _ & -> & _) | (Hq & Hs & -> & _ & Hok)]];
    try done.
  destruct Hok as (qv & sv & Hqv & Hsv & Hlen & ->).
  destruct wd_comp_ctx_layout as (_ & _ & Hoff & Hsize).
  eexists qv, _. simpl.
  split; [done|]. split; [by rewrite lookup_insert_eq|].
  split; [by rewrite lookup_insert_eq|]. simpl. rewrite Hoff, Hsize.
  split; [done|]. split; [done|]. split; [lia|]. split; [| split; [| split]].
  - rewrite length_app, length_replicate. lia.
  - by rewrite take_app_length.
  - intros i Hi. rewrite lookup_app_r by lia.
    apply lookup_replicate_2. lia.
  - intros H32. rewrite H32. simpl. by rewrite app_nil_r.
Qed.

End WdAlg.

Section WdDoComp.
Import Wd.
Context {device : Type}.
Variable wd_send : Z → wd_comp_msg → device → Z * device.
Variable wd_recv_sync : Z → device → Z * wd_comp_msg * device.

#[local] Abbreviation do_comp := (wd_do_comp wd_send wd_recv_sync).

Lemma wd_do_comp_cases ctx c cflush in_ in_bytes_ comsumed out out_bytes_ m d :
  ctxs m !! ctx = Some c →
  let msg := request c cflush in_ in_bytes_ out in
  let m1 :=
    mk_umem (queues m) (setups m)
      (<[ctx := mk_ctx msg (ctx_q c) (ctx_cb c) (ctx_alg c)]> (ctxs m))
      (malloc_tape m) (wd_err m) in
  let sent := wd_send (ctx_q c) msg d in
  let got := wd_recv_sync (ctx_q c) sent.2 in
  do_comp ctx cflush in_ in_bytes_ comsumed out out_bytes_ m d
  = if negb (sent.1 =? 0)
    then Some (sent.1, (cflush, comsumed, out_bytes_),
               log "%s():wd_send err!" [] m1, sent.2)
    else if negb (got.1.1 =? 1)
    then Some (got.1.1, (cflush, comsumed, out_bytes_),
               log "%s():wd_recv_sync err!ret=%d" [got.1.1] m1, got.2)
    else Some (0,
               (u32 (cflags got.1.2), int_of_u32 (in_coms got.1.2),
                int_of_u32 (out_bytes got.1.2)),
               m1, got.2).
Proof.
  intros Hc msg m1 sent got. unfold wd_do_comp. rewrite Hc.
  fold msg. fold m1. fold sent.
  destruct sent as [ret d1] eqn:Hsent. simpl.
  destruct (negb (ret =? 0)); [done|].
  subst got. simpl.
  by destruct (wd_recv_sync (ctx_q c) d1) as [[ret2 resp] d2].
Qed.

(** X20: on a live context [wd_do_comp] always returns.  A non-zero return
    leaves what [cflush], [comsumed] and [out_bytes] point to untouched
    and prints one line; [wd_recv_sync] is not called when [wd_send]
    failed.  A return of 0 is not always a success: it is either a
    response received, the three outputs then being the response's and
    nothing printed, or [wd_recv_sync] having returned 0, the outputs
    then being untouched and one line printed. *)
Theorem wd_do_comp_outcomes ctx c cflush in_ in_bytes_ comsumed out
    out_bytes_ m d :
  ctxs m !! ctx = Some c →
  let sent := wd_send (ctx_q c) (request c cflush in_ in_bytes_ out) d in
  let got := wd_recv_sync (ctx_q c) sent.2 in
  ∃ ret outs m' d',
    do_comp ctx cflush in_ in_bytes_ comsumed out out_bytes_ m d
    = Some (ret, outs, m', d')
    ∧ (ret ≠ 0 →
       outs = (cflush, comsumed, out_bytes_)
       ∧ length (wd_err m') = S (length (wd_err m)))
    ∧ (sent.1 ≠ 0 → ret = sent.1 ∧ d' = sent.2)
    ∧ (ret = 0 →
       sent.1 = 0
       ∧ (got.1.1 = 1
          ∧ outs = (u32 (cflags got.1.2), int_of_u32 (in_coms got.1.2),
                    int_of_u32 (out_bytes got.1.2))
          ∧ wd_err m' = wd_err m
          ∨ got.1.1 = 0
            ∧ outs = (cflush, comsumed, out_bytes_)
            ∧ length (wd_err m') = S (length (wd_err m)))).
Proof.
  intros Hc sent got.
  rewrite (wd_do_comp_cases _ _ cflush in_ in_bytes_ comsumed out out_bytes_
             _ d Hc).
  fold sent. fold got.
  destruct (Z.eqb_spec sent.1 0) as [Hs | Hs]; simpl.
  - destruct (Z.eqb_spec got.1.1 1) as [Hg | Hg]; simpl.
    + eexists _, _, _, _. split; [done|]. split; [done|]. split; [done|].
      intros _. split; [done|]. left. done.
    + eexists _, _, _, _. split; [done|]. split; [| split; [done|]].
      * intros _. split; [done|]. simpl. rewrite length_app. simpl. lia.
      * intros H0. split; [done|]. right.
        split; [done|]. split; [done|]. simpl. rewrite length_app. simpl. lia.
  - eexists _, _, _, _. split; [done|]. split; [| split; [done | done]].
    intros _. split; [done|]. simpl. rewrite length_app. simpl. lia.
Qed.

(** Without a live context, [ctx] being NULL included, [wd_do_comp] has
    no defined behaviour: it never checks [ctx]. *)
Lemma wd_do_comp_no_ctx ctx cflush in_ in_bytes_ comsumed out out_bytes_ m d :
  ctxs m !! ctx = None →
  do_comp ctx cflush in_ in_bytes_ comsumed out out_bytes_ m d = None.
Proof. intros Hc. unfold wd_do_comp. by rewrite Hc. Qed.

End WdDoComp.

Section WdRequest.
Import Wd.
Context {device : Type}.
Variable wd_send : Z → wd_comp_msg → device → Z * device.
Variable wd_recv_sync : Z → device → Z * wd_comp_msg * device.

Lemma u32_of_negative_int x : - 2 ^ 31 <= x < 0 → u32 x = x + 2 ^ 32.
Proof.
  intros Hx. unfold u32. symmetry.
  apply Z.mod_unique with (q := -1); lia.
Qed.

Lemma int_of_u32_small x : 0 <= x < 2 ^ 31 → int_of_u32 x = x.
Proof. intros Hx. unfold int_of_u32. rewrite Z.mod_small; lia. Qed.

Lemma int_of_u32_large x : 2 ^ 31 <= x < 2 ^ 32 → int_of_u32 x = x - 2 ^ 32.
Proof.
  intros Hx. unfold int_of_u32.
  assert ((x + 2 ^ 31) mod 2 ^ 32 = x - 2 ^ 31) as ->
    by (symmetry; apply Z.mod_unique with (q := 1); lia).
  lia.
Qed.

(** X21: [wd_do_comp] on a context that [wd_create_comp_ctx] has just
    made calls [wd_send] on the queue the context was created for, with
    a message that carries the parameters of the setup truncated to the
    width of their fields, the address of the context's own [alg], the
    caller's flush flag and buffers, and zero elsewhere; the device it
    ends in is the one that call, and [wd_recv_sync] after it when the
    call returned 0, produced.  The input length is sent unsigned: a
    negative [in_bytes] goes out as [in_bytes + 2^32]. *)
Theorem wd_do_comp_request q setup m p m' sv cflush in_ in_bytes_ comsumed
    out out_bytes_ d :
  wd_create_comp_ctx offsetof_alg q setup m = Some (p, m') → p ≠ 0 →
  setups m !! setup = Some sv →
  let sent :=
    wd_send q (first_request p sv cflush in_ in_bytes_ out) d in
  ∃ ret outs m'' d',
    wd_do_comp wd_send wd_recv_sync p cflush in_ in_bytes_ comsumed out
      out_bytes_ m' d
    = Some (ret, outs, m'', d')
    ∧ (sent.1 ≠ 0 → ret = sent.1 ∧ d' = sent.2)
    ∧ (sent.1 = 0 →
       d' = (wd_recv_sync q sent.2).2
       ∧ ((wd_recv_sync q sent.2).1.1 ≠ 1 →
          ret = (wd_recv_sync q sent.2).1.1))
    ∧ (- 2 ^ 31 <= in_bytes_ < 0 →
       in_bytes (first_request p sv cflush in_ in_bytes_ out)
       = in_bytes_ + 2 ^ 32).
Proof.
  intros Hrun Hp Hsv sent. apply wd_create_comp_ctx_cases in Hrun
    as [(_ & -> & _) | [(_ & _ & _ & -> & _) | (Hq & Hs & -> & _ & Hok)]];
    try done.
  destruct Hok as (qv & sv' & Hqv & Hsv' & Hlen & ->).
  rewrite Hsv in Hsv'. injection Hsv' as <-.
  destruct wd_comp_ctx_layout as (_ & _ & Hoff & _).
  rewrite Hoff.
  erewrite (wd_do_comp_cases wd_send wd_recv_sync);
    [| simpl; by rewrite lookup_insert_eq].
  simpl. change (wd_send q (request _ cflush in_ in_bytes_ out) d) with sent.
  destruct (Z.eqb_spec sent.1 0) as [Hs0 | Hs0]; simpl.
  - destruct (Z.eqb_spec (wd_recv_sync q sent.2).1.1 1) as [Hg | Hg]; simpl;
      eexists _, _, _, _; (split; [done|]);
      (split; [done|]); (split; [done|]); apply u32_of_negative_int.
  - eexists _, _, _, _. split; [done|]. split; [done|]. split; [done|].
    apply u32_of_negative_int.
Qed.

End WdRequest.

Section WdByteCounts.
Import Wd.
Context {device : Type}.
Variable wd_send : Z → wd_comp_msg → device → Z * device.
Variable wd_recv_sync : Z → device → Z * wd_comp_msg * device.

(** X22: the byte counts of a response are stored into [int]s: counts below
    2^31 are reported as they are, and counts from 2^31 up are reported
    negative, 2^32 too low. *)
Theorem wd_do_comp_byte_counts ctx c cflush in_ in_bytes_ comsumed out
    out_bytes_ m d :
  ctxs m !! ctx = Some c →
  let sent := wd_send (ctx_q c) (request c cflush in_ in_bytes_ out) d in
  let resp := (wd_recv_sync (ctx_q c) sent.2).1.2 in
  sent.1 = 0 → (wd_recv_sync (ctx_q c) sent.2).1.1 = 1 →
  0 <= out_bytes resp < 2 ^ 32 → 0 <= in_coms resp < 2 ^ 32 →
  ∃ new_cflush new_comsumed new_out_bytes m' d',
    wd_do_comp wd_send wd_recv_sync ctx cflush in_ in_bytes_ comsumed out
      out_bytes_ m d
    = Some (0, (new_cflush, new_comsumed, new_out_bytes), m', d')
    ∧ - 2 ^ 31 <= new_out_bytes < 2 ^ 31
    ∧ - 2 ^ 31 <= new_comsumed < 2 ^ 31
    ∧ (out_bytes resp < 2 ^ 31 → new_out_bytes = out_bytes resp)
    ∧ (2 ^ 31 <= out_bytes resp → new_out_bytes = out_bytes resp - 2 ^ 32)
    ∧ (in_coms resp < 2 ^ 31 → new_comsumed = in_coms resp)
    ∧ (2 ^ 31 <= in_coms resp → new_comsumed = in_coms resp - 2 ^ 32).
Proof.
  intros Hc sent resp Hsent Hgot Hob Hic.
  rewrite (wd_do_comp_cases wd_send wd_recv_sync _ _ cflush in_ in_bytes_
             comsumed out out_bytes_ _ d Hc).
  fold sent. rewrite Hsent, Hgot. simpl. fold resp.
  eexists _, _, _, _, _. split; [done|].
  destruct (Z.lt_ge_cases (out_bytes resp) (2 ^ 31)) as [Ho | Ho];
    destruct (Z.lt_ge_cases (in_coms resp) (2 ^ 31)) as [Hi | Hi];
    rewrite ?(int_of_u32_small (out_bytes resp)),
            ?(int_of_u32_large (out_bytes resp)),
            ?(int_of_u32_small (in_coms resp)),
            ?(int_of_u32_large (in_coms resp)) by lia;
    repeat split; lia.
Qed.

End WdByteCounts.


Lemma wd_create_comp_ctx_alg_witness :
  ∃ qv c,
    Wd.queues wd_mem !! 0x1000 = Some qv
    ∧ Wd.ctxs wd_mem_with_ctx !! 0x3000 = Some c
    ∧ Wd.queues wd_mem_with_ctx !! 0x1000
      = Some (Wd.mk_queue (Wd.capa_alg qv) 0x3000)
    ∧ Wd.ctx_q c = 0x1000
    ∧ Wd.alg (Wd.cache_msg c) = 0x3050
    ∧ Wd.alg (Wd.cache_msg c) + 32 = 0x3000 + Wd.sizeof_wd_comp_ctx
    ∧ length (Wd.ctx_alg c) = 32%nat
    ∧ take (length (Wd.capa_alg qv)) (Wd.ctx_alg c) = Wd.capa_alg qv
    ∧ (∀ i, (length (Wd.capa_alg qv) ≤ i < 32)%nat →
         Wd.ctx_alg c !! i = Some 0)
    ∧ (length (Wd.capa_alg qv) = 32%nat → Wd.ctx_alg c = Wd.capa_alg qv).
Proof.
  apply (wd_create_comp_ctx_alg 0x1000 0x2000 wd_mem 0x3000 wd_mem_with_ctx).
  - vm_compute. reflexivity.
  - discriminate.
Defined.

Lemma wd_del_comp_ctx_dangling_witness :
  ∃ m'',
    Wd.wd_del_comp_ctx 0x3000 wd_mem_with_ctx = Some m''
    ∧ Wd.ctxs m'' !! 0x3000 = None
    ∧ Wd.queue_ctx <$> Wd.queues m'' !! 0x1000 = Some 0x3000
    ∧ Wd.wd_del_comp_ctx 0x3000 m'' = None
    ∧ Wd.wd_del_comp_ctx 0 m'' = Some m''.
Proof.
  apply (wd_del_comp_ctx_dangling Wd.offsetof_alg 0x1000 0x2000 wd_mem 0x3000
           wd_mem_with_ctx).
  - vm_compute. reflexivity.
  - discriminate.
Defined.

Lemma wd_do_comp_outcomes_witness :
  ∃ c, Wd.ctxs wd_mem_with_ctx !! 0x3000 = Some c
    ∧ ∃ ret outs m' d',
        Wd.wd_do_comp dev_send dev_recv_nothing 0x3000 4 0x5000 4096 7 0x6000 9
          wd_mem_with_ctx []
        = Some (ret, outs, m', d')
        ∧ (ret ≠ 0 →
           outs = (4, 7, 9)
           ∧ length (Wd.wd_err m') = S (length (Wd.wd_err wd_mem_with_ctx))).
Proof.
  eexists. split; [vm_compute; reflexivity|].
  destruct (wd_do_comp_outcomes dev_send dev_recv_nothing 0x3000 _ 4 0x5000
              4096 7 0x6000 9 wd_mem_with_ctx []
              ltac:(vm_compute; reflexivity))
    as (ret & outs & m' & d' & Hrun & Hnz & _).
  by exists ret, outs, m', d'.
Defined.

Lemma wd_do_comp_request_witness :
  ∃ ret outs m'' d',
    Wd.wd_do_comp dev_send dev_recv 0x3000 4 0x5000 (-1) 7 0x6000 9
      wd_mem_with_ctx []
    = Some (ret, outs, m'', d')
    ∧ d' = [Wd.mk_msg 0x3050 1 0 0xffffffff 0 0x5000 0x6000 9 3 2 0 32768
              4 0 0].
Proof.
  destruct (wd_do_comp_request dev_send dev_recv 0x1000 0x2000 wd_mem 0x3000
              wd_mem_with_ctx (Wd.mk_setup 1 9 2 32768 3 0x400100)
              4 0x5000 (-1) 7 0x6000 9 []
              ltac:(vm_compute; reflexivity) ltac:(discriminate)
              ltac:(vm_compute; reflexivity))
    as (ret & outs & m'' & d' & Hrun & _ & Hdev & _).
  exists ret, outs, m'', d'. split; [exact Hrun|].
  destruct (Hdev eq_refl) as [-> _]. vm_compute. reflexivity.
Defined.

Lemma wd_do_comp_byte_counts_witness :
  ∃ new_cflush new_comsumed new_out_bytes m' d',
    Wd.wd_do_comp dev_send dev_recv 0x3000 4 0x5000 4096 7 0x6000 9
      wd_mem_with_ctx []
    = Some (0, (new_cflush, new_comsumed, new_out_bytes), m', d')
    ∧ new_out_bytes = 100 ∧ new_comsumed = 4096.
Proof.
  assert (Hc : Wd.ctxs wd_mem_with_ctx !! 0x3000 = Some wd_ctx_created)
    by (vm_compute; reflexivity).
  assert (Hob : 0 <= 100 < 2 ^ 32) by lia.
  assert (Hic : 0 <= 4096 < 2 ^ 32) by lia.
  destruct (wd_do_comp_byte_counts dev_send dev_recv 0x3000 wd_ctx_created
              4 0x5000 4096 7 0x6000 9 wd_mem_with_ctx [] Hc eq_refl eq_refl
              Hob Hic)
    as (f & cs & ob & m' & d' & Hrun & _ & _ & Hsmall & _ & Hcs & _).
  exists f, cs, ob, m', d'. split; [exact Hrun|]. split.
  - apply Hsmall. reflexivity.
  - apply Hcs. reflexivity.
Defined.

(** * The sample run on concrete inputs *)

Example run_wd_create :
  Wd.wd_create_comp_ctx Wd.offsetof_alg 0x1000 0x2000 wd_mem
  = Some (0x3000,
          Wd.mk_umem {[ 0x1000 := Wd.mk_queue [122; 108; 105; 98] 0x3000 ]}
            {[ 0x2000 := Wd.mk_setup 1 9 2 32768 3 0x400100 ]}
            {[ 0x3000 :=
                 Wd.mk_ctx
                   (Wd.mk_msg 0x3050 1 0 0 0 0 0 9 3 2 0 32768 0 0 0)
                   0x1000 0x400100
                   ([122; 108; 105; 98] ++ replicate 28 0) ]}
            [] []).
Proof. vm_compute. reflexivity. Qed.

Example run_wd_create_out_of_memory :
  Wd.wd_create_comp_ctx Wd.offsetof_alg 0x1000 0x2000 wd_mem_with_ctx
  = Some (0, Wd.log "Alloc ctx memory fail!" [] wd_mem_with_ctx).
Proof. vm_compute. reflexivity. Qed.

Example run_wd_do_comp :
  (λ r, (r.1.1.1, r.1.1.2, r.2))
    <$> Wd.wd_do_comp dev_send dev_recv 0x3000 4 0x5000 4096 7 0x6000 9
          wd_mem_with_ctx []
  = Some (0, (4, 4096, 100),
          [Wd.mk_msg 0x3050 1 0 4096 0 0x5000 0x6000 9 3 2 0 32768 4 0 0]).
Proof. vm_compute. reflexivity. Qed.

Example run_wd_do_comp_busy :
  (λ r, (r.1.1.1, r.1.1.2, Wd.wd_err r.1.2))
    <$> Wd.wd_do_comp dev_send_busy dev_recv 0x3000 4 0x5000 4096 7 0x6000 9
          wd_mem_with_ctx []
  = Some (-16, (4, 7, 9), [Wd.WD_ERR "%s():wd_send err!" []]).
Proof. vm_compute. reflexivity. Qed.

Example run_wd_do_comp_no_answer :
  (λ r, (r.1.1.1, r.1.1.2, Wd.wd_err r.1.2))
    <$> Wd.wd_do_comp dev_send dev_recv_nothing 0x3000 4 0x5000 4096 7 0x6000 9
          wd_mem_with_ctx []
  = Some (0, (4, 7, 9), [Wd.WD_ERR "%s():wd_recv_sync err!ret=%d" [0]]).
Proof. vm_compute. reflexivity. Qed.
